(** * uAnimeDownloader: the comicat.org listing crawler and its HTTP boundary

    A shallow embedding of [backend/crawler.py] and [backend/main.py].

    - Python [str] values are lists of Unicode code points.
    - The regular expressions of the crawler are terms of a small regex
      syntax, run by a backtracking matcher with the priorities of
      Python's [re] (leftmost start, first alternative, greedy
      repetition).
    - Effects (the HTTP client, the snapshot file, the clock) are threaded
      through a state-and-exception monad over an explicit [world].
    - Library functions whose tables are not part of the repository
      ([urljoin], [str.lower], [datetime.isoformat], the two HTML parsers)
      are fields of a record [pylib] that every definition using them
      takes as an argument. *)

From Stdlib Require Import String Ascii Bool Arith NArith ZArith Lia List.
Import ListNotations.

Set Implicit Arguments.
Set Warnings "-register-all,-abstract-large-number".

(* ================================================================== *)
(** * Python strings *)
(* ================================================================== *)

(** A character is a Unicode code point. *)
Definition char := N.
Bind Scope N_scope with char.
Definition str := list char.

Definition bytes_of_string (s : string) : list N :=
  map N_of_ascii (list_ascii_of_string s).

(** UTF-8 decoding, used only to write literals the way the source has
    them. *)
Fixpoint utf8_decode (bs : list N) : str :=
  match bs with
  | [] => []
  | b :: r =>
      if (b <? 128)%N then b :: utf8_decode r
      else if (b <? 224)%N then
        match r with
        | b1 :: r1 => ((b - 192) * 64 + (b1 - 128))%N :: utf8_decode r1
        | [] => [b]
        end
      else if (b <? 240)%N then
        match r with
        | b1 :: b2 :: r2 =>
            ((b - 224) * 4096 + (b1 - 128) * 64 + (b2 - 128))%N
              :: utf8_decode r2
        | _ => [b]
        end
      else
        match r with
        | b1 :: b2 :: b3 :: r3 =>
            ((b - 240) * 262144 + (b1 - 128) * 4096
             + (b2 - 128) * 64 + (b3 - 128))%N :: utf8_decode r3
        | _ => [b]
        end
  end.

(** [py "..."] is the Python string literal ["..."]. *)
Definition py (s : string) : str := utf8_decode (bytes_of_string s).

Definition char_eqb (a b : char) : bool := N.eqb a b.

Fixpoint str_eqb (a b : str) : bool :=
  match a, b with
  | [], [] => true
  | x :: a', y :: b' => char_eqb x y && str_eqb a' b'
  | _, _ => false
  end.

(** [s.startswith(p)] *)
Fixpoint startswith (s p : str) : bool :=
  match p, s with
  | [], _ => true
  | x :: p', y :: s' => char_eqb x y && startswith s' p'
  | _ :: _, [] => false
  end.

(** [s.endswith(p)] *)
Definition endswith (s p : str) : bool := startswith (rev s) (rev p).

(** [p in s] *)
Fixpoint contains (s p : str) : bool :=
  startswith s p || match s with [] => false | _ :: s' => contains s' p end.

(** Truth value of a string: [bool(s)]. *)
Definition str_truthy (s : str) : bool :=
  match s with [] => false | _ :: _ => true end.

(** [a or b] on strings. *)
Definition str_or (a b : str) : str := if str_truthy a then a else b.

(** ** Character classes *)

Definition in_range (lo hi c : N) : bool := (lo <=? c)%N && (c <=? hi)%N.

(** [str.isspace] on one character, which is also the class [\s] of a
    [str] pattern and what [str.strip()] removes. *)
Definition isspace (c : char) : bool :=
  in_range 9 13 c || in_range 28 32 c
  || char_eqb c 133 || char_eqb c 160 || char_eqb c 5760
  || in_range 8192 8202 c || char_eqb c 8232 || char_eqb c 8233
  || char_eqb c 8239 || char_eqb c 8287 || char_eqb c 12288.

(** The code points of general category Nd come in runs of ten, digit
    zero first; these are the zeros (Unicode 14, CPython 3.11). *)
Definition nd_zeros : list N :=
  [ 48; 1632; 1776; 1984; 2406; 2534; 2662; 2790; 2918; 3046; 3174; 3302;
    3430; 3558; 3664; 3792; 3872; 4160; 4240; 6112; 6160; 6470; 6608;
    6784; 6800; 6992; 7088; 7232; 7248; 42528; 43216; 43264; 43472;
    43504; 43600; 44016; 65296; 66720; 68912; 69734; 69872; 69942;
    70096; 70384; 70736; 70864; 71248; 71360; 71472; 71904; 72016;
    72784; 73040; 73120; 92768; 92864; 93008; 120782; 120792; 120802;
    120812; 120822; 123200; 123632; 125264; 130032 ]%N.

(** The value of a decimal digit, [None] for any other character. *)
Definition decimal_value (c : char) : option N :=
  match find (fun z => in_range z (z + 9) c) nd_zeros with
  | Some z => Some (c - z)%N
  | None => None
  end.

(** The class [\d] of a [str] pattern. *)
Definition isdigit (c : char) : bool :=
  match decimal_value c with Some _ => true | None => false end.

(** [int(s)] for a string of decimal digits (all the crawler passes). *)
Definition int_of (s : str) : Z :=
  fold_left
    (fun acc c =>
       (acc * 10 + match decimal_value c with
                   | Some d => Z.of_N d
                   | None => 0
                   end)%Z)
    s 0%Z.

Definition ascii_lower_char (c : char) : char :=
  if in_range 65 90 c then (c + 32)%N else c.

(** A literal ASCII character of a pattern compiled with
    [re.IGNORECASE]: the text character matches when its simple
    lower-case mapping equals the literal's, plus the equivalents the
    [re] compiler adds (dotless i, long s). *)
Definition ilit (p : char) (c : char) : bool :=
  let lp := ascii_lower_char p in
  char_eqb (ascii_lower_char c) lp
  || (char_eqb lp 105 && (char_eqb c 304 || char_eqb c 305))
  || (char_eqb lp 115 && char_eqb c 383)
  || (char_eqb lp 107 && char_eqb c 8490).

(** A literal character of a pattern compiled without flags. *)
Definition lit (p : char) (c : char) : bool := char_eqb p c.

(** ** [strip] *)

Fixpoint lstrip (s : str) : str :=
  match s with
  | c :: s' => if isspace c then lstrip s' else s
  | [] => []
  end.

Definition rstrip (s : str) : str := rev (lstrip (rev s)).

(** [s.strip()] *)
Definition strip (s : str) : str := rstrip (lstrip s).

(* ================================================================== *)
(** * Regular expressions *)
(* ================================================================== *)

Module Re.

(** The constructs the crawler's patterns use. *)
Inductive regex : Type :=
| Eps
| Chr (p : char -> bool)                       (* one character of a class *)
| Cat (r1 r2 : regex)
| Alt (r1 r2 : regex)                          (* r1|r2 *)
| Opt (r : regex)                              (* r? *)
| Rep (p : char -> bool) (lo : nat) (hi : option nat)   (* p{lo,hi}, p+ *)
| Grp (r : regex)                              (* capturing group *)
| Bol                                          (* ^ *)
| Eol.                                         (* $ *)

(** A literal string, case-sensitive or not. *)
Fixpoint lits (f : char -> char -> bool) (s : str) : regex :=
  match s with
  | [] => Eps
  | [c] => Chr (f c)
  | c :: s' => Cat (Chr (f c)) (lits f s')
  end.

(** [r1|r2|...|rn] *)
Fixpoint alts (rs : list regex) : regex :=
  match rs with
  | [] => Eps
  | [r] => r
  | r :: rs' => Alt r (alts rs')
  end.

Definition hi_allows (hi : option nat) : bool :=
  match hi with Some O => false | _ => true end.

(** Greedy bounded repetition of a one-character item: take as many as
    allowed, give back one at a time. *)
Fixpoint rep_m {A} (p : char -> bool) (lo : nat) (hi : option nat)
    (s : str) (k : str -> option A) : option A :=
  let stop := match lo with O => k s | S _ => None end in
  match s with
  | c :: s' =>
      if p c && hi_allows hi then
        match rep_m p (pred lo) (option_map pred hi) s' k with
        | Some x => Some x
        | None => stop
        end
      else stop
  | [] => stop
  end.

(** The backtracking matcher in continuation-passing style. [text] is
    the whole subject, [s] what is left of it, [caps] the groups closed
    so far. *)
Fixpoint m {A} (r : regex) (text s : str) (caps : list str)
    (k : str -> list str -> option A) : option A :=
  match r with
  | Eps => k s caps
  | Chr p =>
      match s with
      | c :: s' => if p c then k s' caps else None
      | [] => None
      end
  | Cat r1 r2 => m r1 text s caps (fun s' caps' => m r2 text s' caps' k)
  | Alt r1 r2 =>
      match m r1 text s caps k with
      | Some x => Some x
      | None => m r2 text s caps k
      end
  | Opt r1 =>
      match m r1 text s caps k with
      | Some x => Some x
      | None => k s caps
      end
  | Rep p lo hi => rep_m p lo hi s (fun s' => k s' caps)
  | Grp r1 =>
      m r1 text s caps
        (fun s' caps' =>
           k s' (caps' ++ [firstn (length s - length s') s]))
  | Bol => if length s =? length text then k s caps else None
  | Eol =>
      match s with
      | [] => k s caps
      | [c] => if char_eqb c 10%N then k s caps else None
      | _ => None
      end
  end.

(** A match object: [group(0)] and [groups()]. *)
Record match_obj : Type := MatchObj { group0 : str; groups : list str }.

Definition match_here (r : regex) (text s : str) : option match_obj :=
  m r text s []
    (fun s' caps => Some (MatchObj (firstn (length s - length s') s) caps)).

(** [re.match(r, text)] *)
Definition re_match (r : regex) (text : str) : option match_obj :=
  match_here r text text.

Fixpoint search_from (r : regex) (text s : str) : option match_obj :=
  match match_here r text s with
  | Some x => Some x
  | None =>
      match s with
      | [] => None
      | _ :: s' => search_from r text s'
      end
  end.

(** [re.search(r, text)] *)
Definition re_search (r : regex) (text : str) : option match_obj :=
  search_from r text text.

(** Whether [r] can match the empty string (an over-approximation: the
    anchors count as empty). *)
Fixpoint nullable (r : regex) : bool :=
  match r with
  | Eps | Bol | Eol | Opt _ => true
  | Chr _ => false
  | Cat r1 r2 => nullable r1 && nullable r2
  | Alt r1 r2 => nullable r1 || nullable r2
  | Rep _ lo _ => match lo with O => true | S _ => false end
  | Grp r1 => nullable r1
  end.

(** Whether [r] is free of the anchors [^] and [$]. *)
Fixpoint anchor_free (r : regex) : bool :=
  match r with
  | Bol | Eol => false
  | Eps | Chr _ | Rep _ _ _ => true
  | Cat r1 r2 | Alt r1 r2 => anchor_free r1 && anchor_free r2
  | Opt r1 | Grp r1 => anchor_free r1
  end.

Definition hi_ok (hi : option nat) (n : nat) : Prop :=
  match hi with Some h => n <= h | None => True end.

(** What it means for [w] to match [r] when [pre] precedes it in the
    subject and [suf] follows. *)
Inductive matches : regex -> str -> str -> str -> Prop :=
| M_Eps pre suf : matches Eps pre [] suf
| M_Chr p c pre suf : p c = true -> matches (Chr p) pre [c] suf
| M_Cat r1 r2 pre w1 w2 suf :
    matches r1 pre w1 (w2 ++ suf) ->
    matches r2 (pre ++ w1) w2 suf ->
    matches (Cat r1 r2) pre (w1 ++ w2) suf
| M_AltL r1 r2 pre w suf : matches r1 pre w suf -> matches (Alt r1 r2) pre w suf
| M_AltR r1 r2 pre w suf : matches r2 pre w suf -> matches (Alt r1 r2) pre w suf
| M_OptSome r pre w suf : matches r pre w suf -> matches (Opt r) pre w suf
| M_OptNone r pre suf : matches (Opt r) pre [] suf
| M_Rep p lo hi pre w suf :
    forallb p w = true ->
    lo <= length w ->
    hi_ok hi (length w) ->
    matches (Rep p lo hi) pre w suf
| M_Grp r pre w suf : matches r pre w suf -> matches (Grp r) pre w suf
| M_Bol suf : matches Bol [] [] suf
| M_Eol pre suf : suf = [] \/ suf = [10%N] -> matches Eol pre [] suf.

(** [w] occurs in [text] at offset [length pre] as a match of [r]. *)
Definition occurs_at (r : regex) (text pre w : str) : Prop :=
  exists suf, text = pre ++ w ++ suf /\ matches r pre w suf.

(** [r] matches nowhere in [text]. *)
Definition no_match (r : regex) (text : str) : Prop :=
  forall pre w, ~ occurs_at r text pre w.

(** [w] is a match of [r] in [text] and no match starts further left. *)
Definition first_match (r : regex) (text w : str) : Prop :=
  exists pre,
    occurs_at r text pre w
    /\ forall pre' w', occurs_at r text pre' w' -> length pre <= length pre'.

End Re.
Import Re.

(* ================================================================== *)
(** * Exceptions, results *)
(* ================================================================== *)

(** A raised [Exception]: its class and its message ([str(e)]). *)
Record exn : Type := Exn { exn_class : string; exn_msg : string }.

Inductive result (A : Type) : Type :=
| Ok (a : A)
| Raise (e : exn).
Arguments Ok {A} a.
Arguments Raise {A} e.

Definition ValueError (msg : string) : exn := Exn "ValueError" msg.
Definition OverflowError (msg : string) : exn := Exn "OverflowError" msg.
Definition RuntimeError (msg : string) : exn := Exn "RuntimeError" msg.
Definition OSError (msg : string) : exn := Exn "OSError" msg.
Definition IndexError (msg : string) : exn := Exn "IndexError" msg.
Definition TypeError (msg : string) : exn := Exn "TypeError" msg.

(* ================================================================== *)
(** * [datetime] *)
(* ================================================================== *)

(** A [tzinfo] object is a [ZoneInfo], identified by its key. *)
Definition tzinfo := string.

Record datetime : Type := Datetime {
  year : Z; month : Z; day : Z;
  hour : Z; minute : Z; second : Z; microsecond : Z;
  dt_tzinfo : option tzinfo
}.

Definition is_leap (y : Z) : bool :=
  ((y mod 4 =? 0) && (negb (y mod 100 =? 0) || (y mod 400 =? 0)))%Z.

Definition days_in_month (y mo : Z) : Z :=
  if (mo =? 2)%Z then (if is_leap y then 29 else 28)%Z
  else if ((mo =? 4) || (mo =? 6) || (mo =? 9) || (mo =? 11))%Z then 30%Z
  else 31%Z.

(** The constructor [datetime(y, mo, d, hh, mm, tzinfo=tz)] with the
    range checks of CPython, in their order. *)
Definition datetime_new (y mo d hh mm : Z) (tz : option tzinfo)
  : result datetime :=
  if negb ((1 <=? y) && (y <=? 9999))%Z
  then Raise (ValueError "year is out of range")
  else if negb ((1 <=? mo) && (mo <=? 12))%Z
  then Raise (ValueError "month must be in 1..12")
  else if negb ((1 <=? d) && (d <=? days_in_month y mo))%Z
  then Raise (ValueError "day is out of range for month")
  else if negb ((0 <=? hh) && (hh <=? 23))%Z
  then Raise (ValueError "hour must be in 0..23")
  else if negb ((0 <=? mm) && (mm <=? 59))%Z
  then Raise (ValueError "minute must be in 0..59")
  else Ok (Datetime y mo d hh mm 0 0 tz).

(** What every [datetime] object satisfies. *)
Definition valid_datetime (t : datetime) : bool :=
  ((1 <=? year t) && (year t <=? 9999)
   && (1 <=? month t) && (month t <=? 12)
   && (1 <=? day t) && (day t <=? days_in_month (year t) (month t))
   && (0 <=? hour t) && (hour t <=? 23)
   && (0 <=? minute t) && (minute t <=? 59)
   && (0 <=? second t) && (second t <=? 59)
   && (0 <=? microsecond t) && (microsecond t <=? 999999))%Z.

(** [t - timedelta(days=1)]: the same wall-clock time on the previous
    calendar day. *)
Definition minus_one_day (t : datetime) : result datetime :=
  let with_date y mo d :=
    Datetime y mo d (hour t) (minute t) (second t) (microsecond t)
      (dt_tzinfo t) in
  if (1 <? day t)%Z then Ok (with_date (year t) (month t) (day t - 1)%Z)
  else if (1 <? month t)%Z then
    Ok (with_date (year t) (month t - 1)%Z
          (days_in_month (year t) (month t - 1)))
  else if (1 <? year t)%Z then Ok (with_date (year t - 1)%Z 12%Z 31%Z)
  else Raise (OverflowError "date value out of range").

(** [t.date()] *)
Definition date_of (t : datetime) : Z * Z * Z := (year t, month t, day t).

(* ================================================================== *)
(** * The parsed document (BeautifulSoup) *)
(* ================================================================== *)

(** Tag names as the parsers produce them (lower case); an attribute
    dictionary as an association list. *)
Inductive node : Type :=
| Tag (name : string) (attrs : list (string * str)) (children : list node)
| NavigableString (s : str)
| Comment (s : str).   (* a comment or another special string *)

(** A [BeautifulSoup] object: the top-level nodes of the document. *)
Definition soup := list node.

Definition is_tag (name : string) (n : node) : bool :=
  match n with
  | Tag nm _ _ => String.eqb nm name
  | _ => false
  end.

Fixpoint assoc (key : string) (attrs : list (string * str)) : option str :=
  match attrs with
  | [] => None
  | (k, v) :: rest => if String.eqb k key then Some v else assoc key rest
  end.

(** [tag.get(key)] *)
Definition attr (key : string) (n : node) : option str :=
  match n with
  | Tag _ attrs _ => assoc key attrs
  | _ => None
  end.

Definition has_attr (key : string) (n : node) : bool :=
  match attr key n with Some _ => true | None => false end.

Definition children_of (n : node) : list node :=
  match n with
  | Tag _ _ cs => cs
  | _ => []
  end.

(** The descendants of a node, in document order. *)
Fixpoint descendants (n : node) : list node :=
  match n with
  | Tag _ _ cs => flat_map (fun c => c :: descendants c) cs
  | _ => []
  end.

(** [tag.get_text()]: the strings below the tag, concatenated; comments
    are left out. *)
Fixpoint get_text (n : node) : str :=
  match n with
  | Tag _ _ cs => flat_map get_text cs
  | NavigableString s => s
  | Comment _ => []
  end.

(** [tag.find_all(name, recursive=False)] *)
Definition find_all_children (name : string) (n : node) : list node :=
  filter (is_tag name) (children_of n).

(** [tag.find_all("a", href=True)] *)
Definition find_all_a_href (n : node) : list node :=
  filter (fun d => is_tag "a" d && has_attr "href" d) (descendants n).

(** [soup.find_all("a", href=True)] *)
Definition soup_find_all_a_href (doc : soup) : list node :=
  filter (fun d => is_tag "a" d && has_attr "href" d)
    (flat_map (fun c => c :: descendants c) doc).

(** [tag.find("a", href=True)] *)
Definition find_a_href (n : node) : option node :=
  hd_error (find_all_a_href n).

Definition has_id (id : str) (n : node) : bool :=
  match attr "id" n with
  | Some v => str_eqb v id
  | None => false
  end.

Fixpoint first_some {A B} (f : A -> option B) (l : list A) : option B :=
  match l with
  | [] => None
  | x :: l' => match f x with Some y => Some y | None => first_some f l' end
  end.

(** The first element, in document order, that is a [tbody#data_list]
    below a [table#listTable]; [inside] tells whether such a table is an
    ancestor. *)
Fixpoint select_below (inside : bool) (n : node) : option node :=
  match n with
  | Tag nm _ cs =>
      if inside && String.eqb nm "tbody" && has_id (py "data_list") n
      then Some n
      else
        let inside' :=
          inside || (String.eqb nm "table" && has_id (py "listTable") n) in
        first_some (select_below inside') cs
  | _ => None
  end.

(** [soup.select_one("table#listTable tbody#data_list")] *)
Definition select_one_data_list (doc : soup) : option node :=
  first_some (select_below false) doc.

(* ================================================================== *)
(** * crawler.py: constants and small helpers *)
(* ================================================================== *)

Definition BASE_URL : str := py "https://comicat.org/".

(** [COMICAT_TODAY_URL = urljoin(BASE_URL, "today-1.html")] *)
Definition COMICAT_TODAY_URL : str := py "https://comicat.org/today-1.html".

Definition TZ : tzinfo := "Asia/Taipei"%string.

Definition chr (a : ascii) : char := N_of_ascii a.

(** [re.sub(r"\s+", " ", s)]: every maximal run of whitespace becomes one
    space; [in_run] tells that the previous character was whitespace. *)
Fixpoint sub_spaces (in_run : bool) (s : str) : str :=
  match s with
  | [] => []
  | c :: s' =>
      if isspace c
      then (if in_run then sub_spaces true s' else 32%N :: sub_spaces true s')
      else c :: sub_spaces false s'
  end.

Definition _clean_text (s : str) : str :=
  strip (sub_spaces false (str_or s [])).

(** [(\d+(?:\.\d+)?)\s?(GB|GiB|MB|MiB|KB)], [re.IGNORECASE] *)
Definition size_re : regex :=
  Cat (Grp (Cat (Rep isdigit 1 None)
                (Opt (Cat (Chr (ilit (chr "."))) (Rep isdigit 1 None)))))
      (Cat (Opt (Chr isspace))
           (Grp (alts [ lits ilit (py "GB"); lits ilit (py "GiB");
                        lits ilit (py "MB"); lits ilit (py "MiB");
                        lits ilit (py "KB") ]))).

Definition size_sentinel : str := py "未知大小".

Definition _guess_size (text : str) : str :=
  match re_search size_re text with
  | Some mo => group0 mo
  | None => str_or text size_sentinel
  end.

(** The class [[- ]] *)
Definition dash_or_space (c : char) : bool :=
  ilit (chr "-") c || ilit (chr " ") c.

(** [2160p|4K|UHD] *)
Definition q_2160 : regex :=
  alts [ lits ilit (py "2160p"); lits ilit (py "4K"); lits ilit (py "UHD") ].

(** [1080p|BDRip|BluRay|WEB[- ]?DL|WEB[- ]?Rip|WEBRip|WEBrip|HEVC|x265|x264] *)
Definition q_1080 : regex :=
  alts [ lits ilit (py "1080p"); lits ilit (py "BDRip");
         lits ilit (py "BluRay");
         Cat (lits ilit (py "WEB"))
             (Cat (Opt (Chr dash_or_space)) (lits ilit (py "DL")));
         Cat (lits ilit (py "WEB"))
             (Cat (Opt (Chr dash_or_space)) (lits ilit (py "Rip")));
         lits ilit (py "WEBRip"); lits ilit (py "WEBrip");
         lits ilit (py "HEVC"); lits ilit (py "x265");
         lits ilit (py "x264") ].

(** [720p] *)
Definition q_720 : regex := lits ilit (py "720p").

Definition q_patterns : list regex := [q_2160; q_1080; q_720].

(** The loop [for pat in q_patterns: ...] of [_guess_quality]. *)
Fixpoint first_pattern (pats : list regex) (text : str) : option str :=
  match pats with
  | [] => None
  | pat :: rest =>
      match re_search pat text with
      | Some mo => Some (group0 mo)
      | None => first_pattern rest text
      end
  end.

Definition _guess_quality (text : str) : str :=
  match first_pattern q_patterns text with
  | Some q => q
  | None => py "unknown"
  end.

Definition captcha_markers : list str :=
  [ py "i'm not a robot"; py "captcha"; py "visitor-test-form";
    py "visitor_test" ].

(** [^(今天|昨天)\s+(\d{1,2}):(\d{2})$] *)
Definition today_re : regex :=
  Cat Bol
   (Cat (Grp (Alt (lits lit (py "今天")) (lits lit (py "昨天"))))
   (Cat (Rep isspace 1 None)
   (Cat (Grp (Rep isdigit 1 (Some 2)))
   (Cat (Chr (lit (chr ":")))
   (Cat (Grp (Rep isdigit 2 (Some 2))) Eol))))).

(** [^(\d{4})-(\d{1,2})-(\d{1,2})\s+(\d{1,2}):(\d{2})$] *)
Definition ymd_re : regex :=
  Cat Bol
   (Cat (Grp (Rep isdigit 4 (Some 4)))
   (Cat (Chr (lit (chr "-")))
   (Cat (Grp (Rep isdigit 1 (Some 2)))
   (Cat (Chr (lit (chr "-")))
   (Cat (Grp (Rep isdigit 1 (Some 2)))
   (Cat (Rep isspace 1 None)
   (Cat (Grp (Rep isdigit 1 (Some 2)))
   (Cat (Chr (lit (chr ":")))
   (Cat (Grp (Rep isdigit 2 (Some 2))) Eol))))))))).

(* ================================================================== *)
(** * models.py *)
(* ================================================================== *)

Record AnimeInfo : Type := mkAnimeInfo {
  title : str;
  url : str;
  size : str;
  quality : str;
  date : str;
  source : str
}.

(* ================================================================== *)
(** * The world: network, snapshot file, clock, HTTP clients *)
(* ================================================================== *)

(** [httpx]'s [ClientState]. *)
Inductive client_state : Type := UNOPENED | OPENED | CLOSED.

(** An [httpx.Client] object; a [client] is a reference to one in the
    store of the world. *)
Record client_obj : Type := ClientObj {
  c_state : client_state;
  c_headers : list (string * str)
}.
Definition client := nat.

Record response : Type := Response { status_code : Z; text : str }.

Inductive event : Type :=
| Ev_enter (c : client)                 (* [with client:] entered *)
| Ev_exit (c : client)                  (* the [with] block left *)
| Ev_get (c : client) (u : str)        (* [c.get(u)] called *)
| Ev_write (s : str) (ok : bool)        (* the snapshot opened for writing *)
| Ev_read                               (* the snapshot read *)
| Ev_parse (html : str)                 (* a listing handed to the parser *)
| Ev_print (s : string).

Record world : Type := World {
  clock : datetime;                       (* [datetime.now(TZ)] *)
  environ : string -> option str;         (* [os.environ] *)
  net : nat -> str -> result response;    (* the answer to the n-th request sent *)
  sent : nat;                             (* requests sent so far *)
  snapshot : option str;                  (* last_comicat_page.html, if it exists *)
  writable : bool;                        (* whether it can be opened for writing *)
  clients : list client_obj;
  log : list event
}.

Definition M (A : Type) : Type := world -> result A * world.

Definition ret {A} (a : A) : M A := fun w => (Ok a, w).

Definition bind {A B} (c : M A) (f : A -> M B) : M B :=
  fun w =>
    match c w with
    | (Ok a, w') => f a w'
    | (Raise e, w') => (Raise e, w')
    end.

Notation "x <- c ;; k" := (bind c (fun x => k))
  (at level 61, c at next level, right associativity).
Notation "c ;;; k" := (bind c (fun _ => k))
  (at level 61, right associativity).

Definition raise {A} (e : exn) : M A := fun w => (Raise e, w).

(** A pure computation that may raise. *)
Definition lift {A} (r : result A) : M A := fun w => (r, w).

(** [try: c  except Exception as e: h e] *)
Definition try_except {A} (c : M A) (h : exn -> M A) : M A :=
  fun w =>
    match c w with
    | (Ok a, w') => (Ok a, w')
    | (Raise e, w') => h e w'
    end.

Definition emit (e : event) : M unit :=
  fun w =>
    (Ok tt, World (clock w) (environ w) (net w) (sent w) (snapshot w)
              (writable w) (clients w) (log w ++ [e])).

(** [datetime.now(TZ)] *)
Definition datetime_now : M datetime := fun w => (Ok (clock w), w).

(** [os.environ.get(key, default)] *)
Definition environ_get (key : string) (default : str) : M str :=
  fun w => (Ok (match environ w key with Some v => v | None => default end), w).

Definition set_client (c : client) (o : client_obj) (w : world) : world :=
  World (clock w) (environ w) (net w) (sent w) (snapshot w) (writable w)
    (firstn c (clients w) ++ o :: skipn (S c) (clients w)) (log w).

Definition state_of (c : client) (w : world) : client_state :=
  match nth_error (clients w) c with
  | Some o => c_state o
  | None => CLOSED
  end.

Definition headers_of (c : client) (w : world) : list (string * str) :=
  match nth_error (clients w) c with
  | Some o => c_headers o
  | None => []
  end.

(** [httpx.Client(timeout=..., follow_redirects=True, headers=headers)] *)
Definition httpx_Client (headers : list (string * str)) : M client :=
  fun w =>
    (Ok (length (clients w)),
     World (clock w) (environ w) (net w) (sent w) (snapshot w) (writable w)
       (clients w ++ [ClientObj UNOPENED headers]) (log w)).

(** [Client.__enter__] *)
Definition client_enter (c : client) : M unit :=
  fun w =>
    match state_of c w with
    | UNOPENED =>
        emit (Ev_enter c) (set_client c (ClientObj OPENED (headers_of c w)) w)
    | OPENED =>
        (Raise (RuntimeError "Cannot open a client instance more than once."), w)
    | CLOSED =>
        (Raise (RuntimeError
                  "Cannot reopen a client instance, once it has been closed."), w)
    end.

(** [Client.__exit__]: the client is closed. *)
Definition client_exit (c : client) : M unit :=
  fun w => emit (Ev_exit c) (set_client c (ClientObj CLOSED (headers_of c w)) w).

(** [with client: body]: the block is left, and the client closed, however
    the body ends. *)
Definition with_client {A} (c : client) (body : M A) : M A :=
  fun w =>
    match client_enter c w with
    | (Raise e, w1) => (Raise e, w1)
    | (Ok _, w1) =>
        match body w1 with
        | (r, w2) => (r, snd (client_exit c w2))
        end
    end.

(** [client.get(url)]: a closed client refuses to send; otherwise the
    request goes out and the network answers or fails (a timeout is one
    of the failures). *)
Definition client_get (c : client) (u : str) : M response :=
  fun w =>
    let w0 := snd (emit (Ev_get c u) w) in
    match state_of c w0 with
    | CLOSED =>
        (Raise (RuntimeError
                  "Cannot send a request, as the client has been closed."), w0)
    | _ =>
        let w1 := set_client c (ClientObj OPENED (headers_of c w0)) w0 in
        (net w1 (sent w1) u,
         World (clock w1) (environ w1) (net w1) (S (sent w1)) (snapshot w1)
           (writable w1) (clients w1) (log w1))
    end.

(** [with open("last_comicat_page.html", "w", ...) as f: f.write(html)] *)
Definition write_snapshot (html : str) : M unit :=
  fun w =>
    let w0 := snd (emit (Ev_write html (writable w)) w) in
    if writable w0
    then (Ok tt, World (clock w0) (environ w0) (net w0) (sent w0) (Some html)
                   (writable w0) (clients w0) (log w0))
    else (Raise (OSError "cannot open last_comicat_page.html"), w0).

(** [os.path.exists("last_comicat_page.html")] *)
Definition snapshot_exists : M bool :=
  fun w => (Ok (match snapshot w with Some _ => true | None => false end), w).

(** [with open("last_comicat_page.html", "r", ...) as f: f.read()] *)
Definition read_snapshot : M str :=
  fun w =>
    let w0 := snd (emit Ev_read w) in
    match snapshot w0 with
    | Some s => (Ok s, w0)
    | None => (Raise (OSError "No such file: last_comicat_page.html"), w0)
    end.

Definition print (s : string) : M unit := emit (Ev_print s).

(* ================================================================== *)
(** * Library functions taken as given *)
(* ================================================================== *)

Record pylib : Type := PyLib {
  (** [urllib.parse.urljoin]; it raises [ValueError] on some malformed
      references. *)
  urljoin : str -> str -> result str;
  (** [str.lower]; the empty string stays empty. *)
  str_lower : str -> str;
  str_lower_empty : str_lower [] = [];
  (** [datetime.isoformat] *)
  isoformat : datetime -> str;
  (** [BeautifulSoup(html, "html.parser")] *)
  html_parser : str -> soup;
  (** [BeautifulSoup(html, "lxml")]; it raises when lxml is missing. *)
  lxml_parser : str -> result soup
}.

(* ================================================================== *)
(** * crawler.py: the functions *)
(* ================================================================== *)

Section Crawler.

Variable L : pylib.

Definition _looks_like_captcha (html : str) : bool :=
  let lower_html := str_lower L html in
  existsb (fun mk => contains lower_html mk) captcha_markers.

(** The body of [_parse_cn_time] once [now] is known. *)
Definition parse_cn_time_at (cell_text : str) (now : datetime)
  : result datetime :=
  let t := strip cell_text in
  match re_match today_re t with
  | Some mo =>
      match groups mo with
      | [day_word; hh; mm] =>
          let base :=
            if str_eqb day_word (py "今天")
            then Ok (date_of now)
            else match minus_one_day now with
                 | Ok d => Ok (date_of d)
                 | Raise e => Raise e
                 end in
          match base with
          | Ok (y, mo_, d) =>
              datetime_new y mo_ d (int_of hh) (int_of mm) (Some TZ)
          | Raise e => Raise e
          end
      | _ => Raise (ValueError "not enough values to unpack")
      end
  | None =>
      match re_match ymd_re t with
      | Some mo =>
          match map int_of (groups mo) with
          | [y; mo_; d; hh; mm] => datetime_new y mo_ d hh mm (Some TZ)
          | _ => Raise (ValueError "not enough values to unpack")
          end
      | None => Ok now
      end
  end.

(** [now = now or datetime.now(TZ)]: a [datetime] is always true. *)
Definition _parse_cn_time (cell_text : str) (now : option datetime)
  : M datetime :=
  now <- match now with
         | Some n => ret n
         | None => datetime_now
         end ;;
  lift (parse_cn_time_at cell_text now).

Definition magnet_prefix : str := py "magnet:?xt=urn:btih:".

(** The [href] of an anchor found with [href=True], stripped. *)
Definition href_of (a : node) : str :=
  strip (match attr "href" a with Some v => v | None => [] end).

Definition is_download_href (href : str) : bool :=
  endswith (str_lower L href) (py ".torrent")
  || contains (str_lower L href) (py "download").

Definition _extract_magnet_from_detail (detail_html : str) : result str :=
  match lxml_parser L detail_html with
  | Raise e => Raise e
  | Ok doc =>
      let hrefs := map href_of (soup_find_all_a_href doc) in
      match find (fun href => startswith href magnet_prefix) hrefs with
      | Some href => Ok href
      | None =>
          match find is_download_href hrefs with
          | Some href => Ok href
          | None => Ok []
          end
      end
  end.

Definition _fetch_detail_link (c : client) (u : str) : M str :=
  r <- try_except
         (r <- client_get c u ;;
          if (status_code r =? 200)%Z
          then magnet <- lift (_extract_magnet_from_detail (text r)) ;;
               ret (Some (str_or magnet u))
          else ret None)
         (fun _ => ret None) ;;
  match r with
  | Some link => ret link
  | None => ret u
  end.

(** The body of [for tr in rows:], with the accumulators [results] and
    [detail_fetch_count]. A row with fewer than four cells matches the
    last pattern ([continue]). *)
Fixpoint parse_rows (rows : list node) (now : datetime)
    (client_for_detail : option client) (max_detail : Z)
    (results : list AnimeInfo) (detail_fetch_count : Z)
  : M (list AnimeInfo) :=
  match rows with
  | [] => ret results
  | tr :: rest =>
      match find_all_children "td" tr with
      | td0 :: _ :: td2 :: td3 :: _ =>
          let date_text := _clean_text (get_text td0) in
          dt <- _parse_cn_time date_text (Some now) ;;
          match find_a_href td2 with
          | None =>
              parse_rows rest now client_for_detail max_detail
                results detail_fetch_count
          | Some title_a =>
              let title := _clean_text (get_text title_a) in
              detail_url <- lift (urljoin L BASE_URL (href_of title_a)) ;;
              let size_text := _guess_size (_clean_text (get_text td3)) in
              let quality := _guess_quality title in
              fu <- match client_for_detail with
                    | Some c =>
                        if (detail_fetch_count <? max_detail)%Z
                        then final_url <- _fetch_detail_link c detail_url ;;
                             ret (final_url, (detail_fetch_count + 1)%Z)
                        else ret (detail_url, detail_fetch_count)
                    | None => ret (detail_url, detail_fetch_count)
                    end ;;
              parse_rows rest now client_for_detail max_detail
                (results
                 ++ [mkAnimeInfo title (fst fu) size_text quality
                       (isoformat L dt) (py "comicat.org")])
                (snd fu)
          end
      | _ =>
          parse_rows rest now client_for_detail max_detail
            results detail_fetch_count
      end
  end.

Definition _parse_today_table (html : str)
    (client_for_detail : option client) (max_detail : Z)
  : M (list AnimeInfo) :=
  emit (Ev_parse html) ;;;
  let doc := html_parser L html in
  match select_one_data_list doc with
  | None => ret []
  | Some table =>
      let rows := find_all_children "tr" table in
      now <- datetime_now ;;
      parse_rows rows now client_for_detail max_detail [] 0%Z
  end.

Definition msg_cache : str :=
  py "线上页面被验证码拦截，使用本地缓存 last_comicat_page.html 解析".
Definition msg_no_cache : str :=
  py "仍然是验证码/人机校验页面（没有本地缓存可用，请检查/更新 COMICAT_COOKIE）".
Definition msg_no_items : str :=
  py "页面结构已加载，但没有从表格中解析到条目（可能页面改版或选择器不匹配）".

Definition base_headers : list (string * str) :=
  [ ("User-Agent"%string,
     py "Mozilla/5.0 (Windows NT 10.0; Win64; x64) AppleWebKit/537.36 (KHTML, like Gecko) Chrome/123.0.0.0 Safari/537.36");
    ("Accept"%string,
     py "text/html,application/xhtml+xml,application/xml;q=0.9,*/*;q=0.8");
    ("Accept-Language"%string, py "zh-CN,zh;q=0.9,en;q=0.8");
    ("Connection"%string, py "keep-alive") ].

(** The snapshot write inside [try: ... except Exception as e: print(...)]. *)
Definition try_write_snapshot (html : str) : M unit :=
  try_except (write_snapshot html)
    (fun _ => print "WARN: cannot write last_comicat_page.html").

(** The [with] block of [scrape_comicat_today] either returns from the
    function ([inr]) or falls through with [html] and [debug_msg]
    ([inl]); the call of [_parse_today_table] comes after the block. *)
Definition scrape_comicat_today : M (list AnimeInfo * str) :=
  cookie_header <- environ_get "COMICAT_COOKIE" [] ;;
  let cookie_header := strip cookie_header in
  let headers :=
    if str_truthy cookie_header
    then base_headers ++ [("Cookie"%string, cookie_header)]
    else base_headers in
  client <- httpx_Client headers ;;
  blk <- with_client client
           (resp <- client_get client COMICAT_TODAY_URL ;;
            let html := text resp in
            try_write_snapshot html ;;;
            if _looks_like_captcha html then
              ex <- snapshot_exists ;;
              if ex : bool then
                html <- read_snapshot ;;
                ret (inl (html, msg_cache))
              else ret (inr ([], msg_no_cache))
            else
              try_write_snapshot html ;;;
              ret (inl (html, py "OK"))) ;;
  match blk with
  | inr early => ret early
  | inl (html, debug_msg) =>
      items <- _parse_today_table html (Some client) 12%Z ;;
      match items with
      | [] => ret ([], msg_no_items)
      | _ => ret (firstn 5 items, debug_msg)
      end
  end.

End Crawler.

(* ================================================================== *)
(** * main.py: the [/api/scrape] endpoint *)
(* ================================================================== *)

(** The Python values the handler deals with. *)
Inductive pyval : Type :=
| PStr (s : str)
| PList (l : list pyval)
| PTuple (l : list pyval)
| PDict (kv : list (str * pyval))
| PModel (a : AnimeInfo).

(** [bool(v)]: a container is true when it is not empty; a model object
    is always true. *)
Definition py_bool (v : pyval) : bool :=
  match v with
  | PStr s => str_truthy s
  | PList l | PTuple l => match l with [] => false | _ => true end
  | PDict kv => match kv with [] => false | _ => true end
  | PModel _ => true
  end.

(** [v[0]] *)
Definition py_getitem0 (v : pyval) : result pyval :=
  match v with
  | PList (x :: _) | PTuple (x :: _) => Ok x
  | PList [] => Raise (IndexError "list index out of range")
  | PTuple [] => Raise (IndexError "tuple index out of range")
  | PStr (c :: _) => Ok (PStr [c])
  | PStr [] => Raise (IndexError "string index out of range")
  | PDict _ => Raise (Exn "KeyError" "0")
  | PModel _ => Raise (TypeError "'AnimeInfo' object is not subscriptable")
  end.

Inductive json : Type :=
| JString (s : str)
| JArray (l : list json)
| JObject (kv : list (str * json)).

Definition model_json (a : AnimeInfo) : json :=
  JObject [ (py "title", JString (title a)); (py "url", JString (url a));
            (py "size", JString (size a));
            (py "quality", JString (quality a));
            (py "date", JString (date a));
            (py "source", JString (source a)) ].

(** What FastAPI sends for a returned value. *)
Fixpoint jsonable_encoder (v : pyval) : json :=
  match v with
  | PStr s => JString s
  | PList l | PTuple l => JArray (map jsonable_encoder l)
  | PDict kv => JObject (map (fun p => (fst p, jsonable_encoder (snd p))) kv)
  | PModel a => model_json a
  end.

(** The value [scrape_comicat_today] returns: a 2-tuple. *)
Definition scrape_value (r : list AnimeInfo * str) : pyval :=
  PTuple [PList (map PModel (fst r)); PStr (snd r)].

Definition error_payload (msg : str) : pyval :=
  PDict [(py "error", PStr msg)].

Section Main.

Variable L : pylib.

Definition scrape_latest : M pyval :=
  try_except
    (r <- scrape_comicat_today L ;;
     let results := scrape_value r in
     if negb (py_bool results)
     then ret (error_payload (py "No new anime releases today."))
     else lift (py_getitem0 results))
    (fun e => ret (error_payload (py "Scrape failed: " ++ py (exn_msg e)))).

(** The body of the response to [GET /api/scrape]. *)
Definition api_scrape : M json :=
  v <- scrape_latest ;; ret (jsonable_encoder v).

End Main.

(* ================================================================== *)
(** * Specification-side notions *)
(* ================================================================== *)

(** The rows [_parse_today_table] keeps: at least four direct cells and a
    hyperlink in the third. Each comes with its cells and its anchor. *)
Definition retained (tr : node) : option (node * node * node) :=
  match find_all_children "td" tr with
  | td0 :: _ :: td2 :: td3 :: _ =>
      match find_a_href td2 with
      | Some a => Some (td0, a, td3)
      | None => None
      end
  | _ => None
  end.

Fixpoint retained_rows (rows : list node) : list (node * node * node) :=
  match rows with
  | [] => []
  | tr :: rest =>
      match retained tr with
      | Some x => x :: retained_rows rest
      | None => retained_rows rest
      end
  end.

(** The rows whose time cell is read: those with at least four cells. *)
Definition time_cell (tr : node) : option node :=
  match find_all_children "td" tr with
  | td0 :: _ :: _ :: _ :: _ => Some td0
  | _ => None
  end.

(** The direct rows of the listing table of a document. *)
Definition listing_rows (doc : soup) : option (list node) :=
  match select_one_data_list doc with
  | Some table => Some (find_all_children "tr" table)
  | None => None
  end.

(** The record built for a retained row, given its parsed time and its
    final URL. *)
Definition record_of (L : pylib) (row : node * node * node)
    (dt : datetime) (final_url : str) : AnimeInfo :=
  let '(_, a, td3) := row in
  mkAnimeInfo (_clean_text (get_text a)) final_url
    (_guess_size (_clean_text (get_text td3)))
    (_guess_quality (_clean_text (get_text a)))
    (isoformat L dt) (py "comicat.org").

(** The time text of a retained row and the reference of its hyperlink. *)
Definition row_time_text (row : node * node * node) : str :=
  let '(td0, _, _) := row in _clean_text (get_text td0).
Definition row_href (row : node * node * node) : str :=
  let '(_, a, _) := row in href_of a.

(** The detail resolver applied, one request after the other, to the
    first [budget] addresses of a list; the others stay as they are. *)
Fixpoint resolve_first (L : pylib) (c : client) (budget : nat)
    (urls : list str) (w : world) {struct urls} : list str * world :=
  match urls, budget with
  | u :: rest, S budget' =>
      match _fetch_detail_link L c u w with
      | (Ok link, w1) =>
          let (links, w2) := resolve_first L c budget' rest w1 in
          (link :: links, w2)
      | (Raise _, w1) =>
          let (links, w2) := resolve_first L c budget' rest w1 in
          (u :: links, w2)
      end
  | _, _ => (urls, w)
  end.

Definition row_anchor (row : node * node * node) : node :=
  let '(_, a, _) := row in a.

(** The retained rows of a parsed listing; none when the table is not
    found. *)
Definition retained_of (doc : soup) : list (node * node * node) :=
  match listing_rows doc with
  | Some rows => retained_rows rows
  | None => []
  end.

(** One record per row, from the rows, their times and their final URLs. *)
Fixpoint zip_records (L : pylib) (rows : list (node * node * node))
    (dts : list datetime) (finals : list str) : list AnimeInfo :=
  match rows, dts, finals with
  | row :: rows', dt :: dts', u :: finals' =>
      record_of L row dt u :: zip_records L rows' dts' finals'
  | _, _, _ => []
  end.

(** The final URLs of the rows still to come when [cnt] detail fetches
    have been counted against the cap [k]. *)
Definition resolved (L : pylib) (oc : option client) (k cnt : Z)
    (durls : list str) (w : world) : list str * world :=
  match oc with
  | Some c => resolve_first L c (Z.to_nat (k - cnt)) durls w
  | None => (durls, w)
  end.


(** Every time cell that is read holds a time [_parse_cn_time] accepts. *)
Definition times_parse (rows : list node) (now : datetime) : Prop :=
  forall tr td0,
    In tr rows -> time_cell tr = Some td0 ->
    exists dt, parse_cn_time_at (_clean_text (get_text td0)) now = Ok dt.

(** Every reference of a retained row is one [urljoin] accepts. *)
Definition joins_succeed (L : pylib) (rows : list node) : Prop :=
  forall row,
    In row (retained_rows rows) ->
    exists d, urljoin L BASE_URL (row_href row) = Ok d.

(** What a record owes to its row. *)
Definition record_from (row : node * node * node) (r : AnimeInfo) : Prop :=
  title r = _clean_text (get_text (row_anchor row))
  /\ size r = _guess_size (_clean_text (get_text (snd row)))
  /\ quality r = _guess_quality (title r)
  /\ source r = py "comicat.org".




(** [r] matches somewhere in [text]. *)
Definition matches_in (r : regex) (text : str) : Prop :=
  exists pre w, occurs_at r text pre w.

(** Whether a client is inside its [with] block after a trace. *)
Fixpoint open_after (c : client) (opened : bool) (tr : list event) : bool :=
  match tr with
  | [] => opened
  | Ev_enter c' :: rest => open_after c (if Nat.eqb c c' then true else opened) rest
  | Ev_exit c' :: rest => open_after c (if Nat.eqb c c' then false else opened) rest
  | _ :: rest => open_after c opened rest
  end.

(** The [get] calls of a trace, each with whether its client was inside
    its [with] block at that moment. *)
Fixpoint gets_with_state (before tr : list event) : list (client * str * bool) :=
  match tr with
  | [] => []
  | Ev_get c u :: rest =>
      (c, u, open_after c false before)
        :: gets_with_state (before ++ [Ev_get c u]) rest
  | e :: rest => gets_with_state (before ++ [e]) rest
  end.

(** The listings handed to the table parser in a trace. *)
Fixpoint parsed_in (tr : list event) : list str :=
  match tr with
  | [] => []
  | Ev_parse h :: rest => h :: parsed_in rest
  | _ :: rest => parsed_in rest
  end.

(** The bodies written to the snapshot file in a trace. *)
Fixpoint written_in (tr : list event) : list str :=
  match tr with
  | [] => []
  | Ev_write h true :: rest => h :: written_in rest
  | _ :: rest => written_in rest
  end.

(** The shape [_clean_text] leaves: the only whitespace is the single
    space, and never two in a row; [after_space] tells that the
    previous character was a space. *)
Fixpoint tidy (after_space : bool) (s : str) : bool :=
  match s with
  | [] => true
  | c :: s' =>
      if isspace c
      then char_eqb c 32%N && negb after_space && tidy true s'
      else tidy false s'
  end.

(** Neither the first nor the last character is whitespace. *)
Definition trimmed (s : str) : bool :=
  match s with
  | [] => true
  | c :: _ => negb (isspace c) && negb (isspace (last s c))
  end.

(** The session cookie as [scrape_comicat_today] reads it. *)
Definition cookie_of (w : world) : str :=
  strip (match environ w "COMICAT_COOKIE" with Some v => v | None => [] end).

(** An ASCII digit. *)
Definition ascii_digit (c : char) : Prop := (48 <= c <= 57)%N.

(* ================================================================== *)
(** * Sample pages and worlds *)
(* ================================================================== *)

Module Samples.

(** On ASCII text [str.lower] is the letter-wise map. *)
Definition ascii_lower (s : str) : str := map ascii_lower_char s.

(** [urljoin] of a base ending in [/] and a plain relative file name. *)
Definition join_relative (base ref : str) : result str := Ok (base ++ ref).

Definition digit_char (n : Z) : char := (48 + Z.to_N (n mod 10))%N.
Definition two_digits (n : Z) : str := [digit_char (n / 10); digit_char n].
Definition four_digits (n : Z) : str :=
  [digit_char (n / 1000); digit_char (n / 100); digit_char (n / 10);
   digit_char n].

(** [isoformat] of a whole-second time in a zone eight hours ahead of
    UTC, as Asia/Taipei has been since 1980. *)
Definition iso_plus8 (t : datetime) : str :=
  four_digits (year t) ++ py "-" ++ two_digits (month t) ++ py "-"
  ++ two_digits (day t) ++ py "T" ++ two_digits (hour t) ++ py ":"
  ++ two_digits (minute t) ++ py ":" ++ two_digits (second t) ++ py "+08:00".

(** ["<day word> HH:MM"], two digits each. *)
Definition time_text (day_word : str) (h mi : nat) : str :=
  day_word ++ py " " ++ two_digits (Z.of_nat h) ++ py ":"
  ++ two_digits (Z.of_nat mi).

Fixpoint strs_eqb (a b : list str) : bool :=
  match a, b with
  | [], [] => true
  | x :: a', y :: b' => str_eqb x y && strs_eqb a' b'
  | _, _ => false
  end.

(** Whether the first time pattern reads [time_text day_word h mi] as the
    day word, the hour [h] and the minute [mi]. *)
Definition reads_time (day_word : str) (h mi : nat) : bool :=
  match re_match today_re (strip (time_text day_word h mi)) with
  | Some mo =>
      match groups mo with
      | [dw; hh; mm] =>
          str_eqb dw day_word && (int_of hh =? Z.of_nat h)%Z
          && (int_of mm =? Z.of_nat mi)%Z
      | _ => false
      end
  | None => false
  end.

Definition parse_table (pages : list (str * soup)) (html : str) : soup :=
  match find (fun p => str_eqb (fst p) html) pages with
  | Some p => snd p
  | None => []
  end.

Definition td (cs : list node) : node := Tag "td" [] cs.
Definition txt (s : string) : node := NavigableString (py s).
Definition a_href (href : string) (cs : list node) : node :=
  Tag "a" [("href"%string, py href)] cs.
Definition listing (rows : list node) : soup :=
  [Tag "table" [("id"%string, py "listTable")]
     [Tag "tbody" [("id"%string, py "data_list")] rows]].

(** A listing with two well-formed rows. *)
Definition page_two_html : str :=
  py "<table id='listTable'><tbody id='data_list'><tr><td>今天 21:41</td><td>动画</td><td><a href='show-1.html'>[Sub] Show - 01 [1080p]</a></td><td>567.6MB</td></tr><tr><td>昨天 08:12</td><td>动画</td><td><a href='show-2.html'>Other 02 720p</a></td><td>1.2 GB</td></tr></tbody></table>".
Definition page_two_rows : list node :=
  [ Tag "tr" []
      [ td [txt "今天 21:41"]; td [txt "动画"];
        td [a_href "show-1.html" [txt "[Sub] Show - 01 [1080p]"]];
        td [txt "567.6MB"] ];
    Tag "tr" []
      [ td [txt "昨天 08:12"]; td [txt "动画"];
        td [a_href "show-2.html" [txt "Other 02 720p"]];
        td [txt "1.2 GB"] ] ].
Definition page_two : soup := listing page_two_rows.

(** A listing whose only row carries a time of day that does not exist. *)
Definition page_bad_time_html : str :=
  py "<table id='listTable'><tbody id='data_list'><tr><td>今天 25:00</td><td>动画</td><td><a href='show-1.html'>Show 01 1080p</a></td><td>567.6MB</td></tr></tbody></table>".
Definition page_bad_time : soup :=
  listing
    [ Tag "tr" []
        [ td [txt "今天 25:00"]; td [txt "动画"];
          td [a_href "show-1.html" [txt "Show 01 1080p"]];
          td [txt "567.6MB"] ] ].

(** A listing whose only row has a title hyperlink without text. *)
Definition page_no_title_html : str :=
  py "<table id='listTable'><tbody id='data_list'><tr><td>今天 21:41</td><td>动画</td><td><a href='show-1.html'> </a></td><td>567.6MB</td></tr></tbody></table>".
Definition page_no_title : soup :=
  listing
    [ Tag "tr" []
        [ td [txt "今天 21:41"]; td [txt "动画"];
          td [a_href "show-1.html" [txt " "]];
          td [txt "567.6MB"] ] ].

(** A verification page. *)
Definition page_captcha_html : str :=
  py "<html><body><form id='visitor-test-form'>captcha</form></body></html>".
Definition page_captcha : soup :=
  [Tag "html" []
     [Tag "body" []
        [Tag "form" [("id"%string, py "visitor-test-form")] [txt "captcha"]]]].

(** A detail page with a plain link before the magnet link. *)
Definition detail_html : str :=
  py "<p><a href='/help.html'>help</a><a href='magnet:?xt=urn:btih:abc'>magnet</a></p>".
Definition detail_page : soup :=
  [Tag "p" []
     [ a_href "/help.html" [txt "help"];
       a_href "magnet:?xt=urn:btih:abc" [txt "magnet"] ]].

Definition pages : list (str * soup) :=
  [ (page_two_html, page_two); (page_bad_time_html, page_bad_time);
    (page_no_title_html, page_no_title);
    (page_captcha_html, page_captcha); (detail_html, detail_page) ].

Definition lib : pylib :=
  PyLib join_relative ascii_lower eq_refl iso_plus8 (parse_table pages)
    (fun h => Ok (parse_table pages h)).

(** 2025-10-26T10:00:00+08:00 *)
Definition now0 : datetime := Datetime 2025 10 26 10 0 0 0 (Some TZ).

(** A network that serves [listing_html] as the listing and
    [detail_html] for every other address. *)
Definition serve (listing_html : str) (n : nat) (u : str) : result response :=
  if str_eqb u COMICAT_TODAY_URL
  then Ok (Response 200 listing_html)
  else Ok (Response 200 detail_html).

(** A world before a scrape: no client yet, an empty trace. *)
Definition fresh (listing_html : str) (snap : option str) (can_write : bool)
  : world :=
  World now0 (fun _ => None) (serve listing_html) 0 snap can_write [] [].

(** The value of a computation that returned, [d] otherwise. *)
Definition value_or {A} (d : A) (r : result A) : A :=
  match r with Ok a => a | Raise _ => d end.

(** A world with one client inside its [with] block. *)
Definition with_open_client (listing_html : str) : world :=
  World now0 (fun _ => None) (serve listing_html) 0 None true
    [ClientObj OPENED []] [Ev_enter 0].

End Samples.

(** A network that is down, and a world before a scrape in which it
    is. *)
Module Offline.
Import Samples.

Definition refuse (n : nat) (u : str) : result response :=
  Raise (Exn "ConnectError" "All connection attempts failed").

Definition offline (snap : option str) (can_write : bool) : world :=
  World now0 (fun _ => None) refuse 0 snap can_write [] [].

End Offline.

Module TimeTexts.
Import Samples.

(** ["YYYY-MM-DD HH:MM"], the year in four digits and the other fields
    in two. *)
Definition ymd_text (y mo d h mi : Z) : str :=
  four_digits y ++ py "-" ++ two_digits mo ++ py "-" ++ two_digits d
  ++ py " " ++ two_digits h ++ py ":" ++ two_digits mi.

End TimeTexts.

(* ================================================================== *)
(** * The matcher against the declarative semantics *)
(* ================================================================== *)

Unset Implicit Arguments.

Module ReFacts.

Lemma rep_m_sound A (p : char -> bool) (s : str) :
  forall lo hi (k : str -> option A) x,
    rep_m p lo hi s k = Some x ->
    exists w s',
      s = w ++ s' /\ forallb p w = true /\ lo <= length w
      /\ hi_ok hi (length w) /\ k s' = Some x.
Proof.
  induction s as [|c s IH]; intros lo hi k x H; simpl in H.
  - destruct lo; [|discriminate].
    exists [], []. repeat split; auto. destruct hi; simpl; lia.
  - assert (Hstop : (match lo with O => k (c :: s) | S _ => None end) = Some x ->
                    exists w s', c :: s = w ++ s' /\ forallb p w = true
                                 /\ lo <= length w /\ hi_ok hi (length w)
                                 /\ k s' = Some x).
    { destruct lo; [|discriminate]. intros Hk.
      exists [], (c :: s). repeat split; auto. destruct hi; simpl; lia. }
    destruct (p c && hi_allows hi) eqn:Hc; [|auto].
    apply andb_prop in Hc. destruct Hc as [Hp Hhi].
    destruct (rep_m p (pred lo) (option_map pred hi) s k) eqn:Hr; [|auto].
    inversion H; subst a.
    destruct (IH _ _ _ _ Hr) as (w & s' & -> & Hw & Hlo & Hh & Hk).
    exists (c :: w), s'. simpl. rewrite Hp, Hw. repeat split; auto; [lia|].
    destruct hi as [[|h]|]; simpl in *; try discriminate; lia.
Qed.

Lemma rep_m_complete A (p : char -> bool) (w : str) :
  forall lo hi s' (k : str -> option A),
    forallb p w = true -> lo <= length w -> hi_ok hi (length w) ->
    k s' <> None ->
    rep_m p lo hi (w ++ s') k <> None.
Proof.
  induction w as [|c w IH]; intros lo hi s' k Hw Hlo Hhi Hk.
  - simpl in *. assert (lo = 0) by lia. subst lo.
    destruct s' as [|c s']; simpl; auto.
    destruct (p c && hi_allows hi); auto.
    destruct (rep_m p 0 (option_map pred hi) s' k); [discriminate|auto].
  - simpl in Hw. apply andb_prop in Hw. destruct Hw as [Hp Hw].
    simpl. rewrite Hp.
    assert (Hal : hi_allows hi = true).
    { destruct hi as [[|h]|]; simpl in *; auto; lia. }
    rewrite Hal. simpl.
    specialize (IH (pred lo) (option_map pred hi) s' k Hw).
    destruct (rep_m p (pred lo) (option_map pred hi) (w ++ s') k).
    + discriminate.
    + exfalso. apply IH; auto.
      * simpl in Hlo. lia.
      * destruct hi as [h|]; simpl in *; auto; lia.
Qed.

Lemma firstn_app_length (w s' : str) :
  firstn (length (w ++ s') - length s') (w ++ s') = w.
Proof.
  rewrite length_app.
  replace (length w + length s' - length s') with (length w) by lia.
  rewrite firstn_app, Nat.sub_diag, firstn_all. simpl. apply app_nil_r.
Qed.

Lemma m_sound A (r : regex) :
  forall text s caps (k : str -> list str -> option A) x,
    m r text s caps k = Some x ->
    forall pre, text = pre ++ s ->
    exists w s' caps',
      s = w ++ s' /\ matches r pre w s' /\ k s' caps' = Some x.
Proof.
  induction r; intros text s caps k x H pre Ht; simpl in H.
  - exists [], s, caps. repeat split; auto. constructor.
  - destruct s as [|c s]; [discriminate|].
    destruct (p c) eqn:Hp; [|discriminate].
    exists [c], s, caps. repeat split; auto. constructor; auto.
  - destruct (IHr1 _ _ _ _ _ H pre Ht) as (w1 & s1 & caps1 & -> & M1 & H2).
    assert (Ht' : text = (pre ++ w1) ++ s1) by (rewrite <- app_assoc; auto).
    destruct (IHr2 _ _ _ _ _ H2 _ Ht') as (w2 & s2 & caps2 & -> & M2 & Hk).
    exists (w1 ++ w2), s2, caps2. rewrite <- app_assoc.
    repeat split; auto. constructor; auto.
  - destruct (m r1 text s caps k) eqn:H1.
    + inversion H; subst a.
      destruct (IHr1 _ _ _ _ _ H1 pre Ht) as (w & s' & c' & -> & Mw & Hk).
      exists w, s', c'. repeat split; auto. apply M_AltL; auto.
    + destruct (IHr2 _ _ _ _ _ H pre Ht) as (w & s' & c' & -> & Mw & Hk).
      exists w, s', c'. repeat split; auto. apply M_AltR; auto.
  - destruct (m r text s caps k) eqn:H1.
    + inversion H; subst a.
      destruct (IHr _ _ _ _ _ H1 pre Ht) as (w & s' & c' & -> & Mw & Hk).
      exists w, s', c'. repeat split; auto. apply M_OptSome; auto.
    + exists [], s, caps. repeat split; auto. apply M_OptNone.
  - destruct (rep_m_sound _ _ _ _ _ _ _ H) as (w & s' & -> & Hw & Hlo & Hhi & Hk).
    exists w, s', caps. repeat split; auto. constructor; auto.
  - destruct (IHr _ _ _ _ _ H pre Ht) as (w & s' & c' & -> & Mw & Hk).
    exists w, s', (c' ++ [firstn (length (w ++ s') - length s') (w ++ s')]).
    repeat split; auto. constructor; auto.
  - destruct (length s =? length text) eqn:Hl; [|discriminate].
    apply Nat.eqb_eq in Hl. subst text. rewrite length_app in Hl.
    destruct pre; [|simpl in Hl; lia].
    exists [], s, caps. repeat split; auto. constructor.
  - destruct s as [|c [|c' s]]; try discriminate.
    + exists [], [], caps. repeat split; auto. constructor; auto.
    + destruct (char_eqb c 10) eqn:Hc; [|discriminate].
      apply N.eqb_eq in Hc. subst c.
      exists [], [10%N], caps. repeat split; auto. constructor; auto.
Qed.

Lemma m_complete r pre w suf :
  matches r pre w suf ->
  forall A text caps (k : str -> list str -> option A),
    text = pre ++ w ++ suf ->
    (forall caps', k suf caps' <> None) ->
    m r text (w ++ suf) caps k <> None.
Proof.
  induction 1; intros A text caps k Ht Hk; simpl.
  - apply Hk.
  - rewrite H. apply Hk.
  - rewrite <- app_assoc. apply IHmatches1.
    + rewrite Ht, <- app_assoc. reflexivity.
    + intros caps'. apply IHmatches2; auto.
      rewrite Ht, <- !app_assoc. reflexivity.
  - specialize (IHmatches A text caps k Ht Hk).
    destruct (m r1 text (w ++ suf) caps k); [discriminate|contradiction].
  - specialize (IHmatches A text caps k Ht Hk).
    destruct (m r1 text (w ++ suf) caps k); [discriminate|auto].
  - specialize (IHmatches A text caps k Ht Hk).
    destruct (m r text (w ++ suf) caps k); [discriminate|contradiction].
  - destruct (m r text suf caps k); [discriminate|apply Hk].
  - apply rep_m_complete; auto.
  - apply IHmatches; auto.
  - simpl in Ht. subst text. rewrite Nat.eqb_refl. apply Hk.
  - destruct H as [-> | ->]; simpl; apply Hk.
Qed.

Lemma match_here_sound r text s mo pre :
  match_here r text s = Some mo -> text = pre ++ s ->
  occurs_at r text pre (group0 mo).
Proof.
  unfold match_here. intros H Ht.
  destruct (m_sound _ _ _ _ _ _ _ H pre Ht) as (w & s' & caps' & -> & Mw & Hk).
  inversion Hk; subst mo; simpl. rewrite firstn_app_length.
  exists s'. split; auto.
Qed.

Lemma match_here_complete r text pre w :
  occurs_at r text pre w ->
  forall s, text = pre ++ s -> match_here r text s <> None.
Proof.
  intros (suf & Ht & Mw) s Hs.
  assert (s = w ++ suf) by (rewrite Ht in Hs; eapply app_inv_head; eauto).
  subst s. unfold match_here. eapply m_complete; eauto. discriminate.
Qed.

Lemma search_from_some r text s :
  forall pre0 mo,
    text = pre0 ++ s -> search_from r text s = Some mo ->
    exists pre,
      occurs_at r text pre (group0 mo)
      /\ length pre0 <= length pre
      /\ forall pre' w', occurs_at r text pre' w' ->
                         length pre0 <= length pre' -> length pre <= length pre'.
Proof.
  induction s as [|c s IH]; intros pre0 mo Ht H; simpl in H.
  - destruct (match_here r text []) eqn:Hm; [|discriminate].
    inversion H; subst m0. exists pre0. split; [|split]; auto.
    eapply match_here_sound; eauto.
  - destruct (match_here r text (c :: s)) eqn:Hm.
    + inversion H; subst m0. exists pre0. split; [|split]; auto.
      eapply match_here_sound; eauto.
    + assert (Ht' : text = (pre0 ++ [c]) ++ s)
        by (rewrite <- app_assoc; auto).
      destruct (IH _ _ Ht' H) as (pre & Hocc & Hle & Hmin).
      rewrite length_app in Hle. simpl in Hle.
      exists pre. split; [|split]; auto; [lia|].
      intros pre' w' Hocc' Hle'.
      destruct (Nat.eq_dec (length pre') (length pre0)) as [E|NE].
      * exfalso.
        assert (pre' = pre0).
        { destruct Hocc' as (suf & Ht2 & _). rewrite Ht2 in Ht.
          apply (f_equal (firstn (length pre'))) in Ht.
          rewrite firstn_app, Nat.sub_diag, firstn_all in Ht. simpl in Ht.
          rewrite E, firstn_app, Nat.sub_diag, firstn_all in Ht. simpl in Ht.
          rewrite !app_nil_r in Ht. auto. }
        subst pre'.
        apply (match_here_complete _ _ _ _ Hocc' (c :: s)); auto.
      * apply (Hmin pre' w'); auto. rewrite length_app. simpl. lia.
Qed.

Lemma search_from_none r text s :
  forall pre0,
    text = pre0 ++ s -> search_from r text s = None ->
    forall pre w, occurs_at r text pre w -> length pre < length pre0.
Proof.
  induction s as [|c s IH]; intros pre0 Ht H pre w Hocc; simpl in H.
  - destruct (match_here r text []) eqn:Hm; [discriminate|].
    destruct (Nat.lt_ge_cases (length pre) (length pre0)) as [|Hge]; auto.
    exfalso. pose proof Hocc as (suf & Ht2 & _).
    assert (Hlen : length pre + length (w ++ suf) = length pre0).
    { rewrite <- length_app, <- Ht2, Ht, app_nil_r. reflexivity. }
    assert (pre = pre0).
    { rewrite app_nil_r in Ht. subst text.
      apply (f_equal (firstn (length pre))) in Ht2.
      rewrite firstn_app, Nat.sub_diag, firstn_all in Ht2. simpl in Ht2.
      rewrite app_nil_r in Ht2. rewrite <- Ht2.
      apply firstn_all2. lia. }
    subst pre. apply (match_here_complete _ _ _ _ Hocc []); auto.
  - destruct (match_here r text (c :: s)) eqn:Hm; [discriminate|].
    assert (Ht' : text = (pre0 ++ [c]) ++ s) by (rewrite <- app_assoc; auto).
    pose proof (IH _ Ht' H pre w Hocc) as Hlt.
    rewrite length_app in Hlt. simpl in Hlt.
    destruct (Nat.eq_dec (length pre) (length pre0)) as [E|NE]; [|lia].
    exfalso.
    assert (pre = pre0).
    { destruct Hocc as (suf & Ht2 & _). rewrite Ht2 in Ht.
      apply (f_equal (firstn (length pre))) in Ht.
      rewrite firstn_app, Nat.sub_diag, firstn_all in Ht. simpl in Ht.
      rewrite E, firstn_app, Nat.sub_diag, firstn_all in Ht. simpl in Ht.
      rewrite !app_nil_r in Ht. auto. }
    subst pre. apply (match_here_complete _ _ _ _ Hocc (c :: s)); auto.
Qed.

(** [re.search] finds the leftmost match. *)
Lemma re_search_some r text mo :
  re_search r text = Some mo -> first_match r text (group0 mo).
Proof.
  intros H. destruct (search_from_some r text text [] mo eq_refl H)
    as (pre & Hocc & _ & Hmin).
  exists pre. split; auto. intros pre' w' Hocc'.
  apply (Hmin pre' w'); auto. simpl. lia.
Qed.

(** [re.search] answers [None] only when nothing matches. *)
Lemma re_search_none r text :
  re_search r text = None -> no_match r text.
Proof.
  intros H pre w Hocc.
  pose proof (search_from_none r text text [] eq_refl H pre w Hocc) as Hlt.
  simpl in Hlt. lia.
Qed.

Lemma first_match_occurs r text w :
  first_match r text w -> exists pre, occurs_at r text pre w.
Proof. intros (pre & H & _). eauto. Qed.

Lemma no_match_search r text :
  no_match r text -> re_search r text = None.
Proof.
  intros H. destruct (re_search r text) eqn:E; auto.
  apply re_search_some in E. destruct E as (pre & Hocc & _).
  exfalso. eapply H; eauto.
Qed.

Lemma matches_nonempty r pre w suf :
  matches r pre w suf -> nullable r = false -> w <> [].
Proof.
  induction 1; simpl; intros Hn; try discriminate.
  - (* Cat *)
    apply andb_false_iff in Hn.
    intros E. apply app_eq_nil in E. destruct E; subst.
    destruct Hn; [apply IHmatches1 | apply IHmatches2]; auto.
  - (* Alt, left *) apply orb_false_iff in Hn. tauto.
  - (* Alt, right *) apply orb_false_iff in Hn. tauto.
  - (* Rep *)
    destruct lo; [discriminate|]. destruct w; simpl in *; [lia|discriminate].
  - (* Grp *) auto.
Qed.

Lemma re_search_nonempty r text mo :
  nullable r = false -> re_search r text = Some mo -> group0 mo <> [].
Proof.
  intros Hn H. apply re_search_some in H.
  destruct H as (pre & (suf & _ & Hm) & _).
  eapply matches_nonempty; eauto.
Qed.

End ReFacts.

(* ================================================================== *)
(** * TextNormalizer: [_guess_quality] and [_guess_size] *)
(* ================================================================== *)

Module TextFacts.
Import ReFacts.

Lemma matches_in_search r text :
  matches_in r text -> exists mo, re_search r text = Some mo.
Proof.
  intros (pre & w & Hocc). destruct (re_search r text) eqn:E; eauto.
  exfalso. eapply re_search_none; eauto.
Qed.


(** Without anchors, what matches does not depend on the surroundings. *)
Lemma matches_anywhere r pre w suf :
  matches r pre w suf -> anchor_free r = true ->
  forall pre' suf', matches r pre' w suf'.
Proof.
  induction 1; simpl; intros Ha pre' suf'; try discriminate;
    try (apply andb_prop in Ha; destruct Ha);
    try (constructor; auto; fail).
Qed.

(** A word that matches an anchor-free pattern is found by the matcher
    when it stands alone. *)
Lemma matches_alone r pre w suf :
  matches r pre w suf -> anchor_free r = true -> re_search r w <> None.
Proof.
  intros Hm Ha Hn. apply re_search_none in Hn.
  apply (Hn [] w). exists []. rewrite app_nil_r. split; auto.
  eapply matches_anywhere; eauto.
Qed.





Lemma guess_quality_nonempty text : _guess_quality text <> [].
Proof.
  unfold _guess_quality. simpl.
  destruct (re_search q_2160 text) eqn:E1.
  { eapply re_search_nonempty; eauto. reflexivity. }
  destruct (re_search q_1080 text) eqn:E2.
  { eapply re_search_nonempty; eauto. reflexivity. }
  destruct (re_search q_720 text) eqn:E3.
  { eapply re_search_nonempty; eauto. reflexivity. }
  discriminate.
Qed.

Lemma guess_size_nonempty text : _guess_size text <> [].
Proof.
  unfold _guess_size. destruct (re_search size_re text) eqn:E.
  - eapply re_search_nonempty; eauto. reflexivity.
  - destruct text; simpl; discriminate.
Qed.

(** C10, as the claim has it, fails: a non-empty input, the sentinel
    text itself, comes back as the sentinel. *)
Lemma C10_sentinel_for_nonempty_input :
  size_sentinel <> [] /\ _guess_size size_sentinel = size_sentinel.
Proof. split; [discriminate|vm_compute; reflexivity]. Qed.

(** C10, amended. [_guess_size] returns the sentinel for the empty text;
    a non-empty text without a size token comes back unchanged; a text
    with a size token gives the leftmost match; and the result is the
    sentinel only for the empty text or for the sentinel text itself. *)
Theorem C10_guess_size (text : str) :
  (text = [] -> _guess_size text = size_sentinel)
  /\ (text <> [] -> no_match size_re text -> _guess_size text = text)
  /\ (matches_in size_re text -> first_match size_re text (_guess_size text))
  /\ (_guess_size text = size_sentinel <->
      text = [] \/ text = size_sentinel).
Proof.
  split; [|split; [|split]].
  - intros ->. vm_compute. reflexivity.
  - intros Hne Hno. unfold _guess_size.
    rewrite (no_match_search _ _ Hno). destruct text; [congruence|reflexivity].
  - intros Hin. destruct (matches_in_search _ _ Hin) as (mo & E).
    unfold _guess_size. rewrite E. apply re_search_some; auto.
  - split.
    + unfold _guess_size. destruct (re_search size_re text) eqn:E.
      * intros Hs. exfalso.
        apply re_search_some in E. rewrite Hs in E.
        destruct E as (pre & (suf & _ & Hm) & _).
        apply (matches_alone _ _ _ _ Hm); [reflexivity|].
        vm_compute. reflexivity.
      * destruct text; simpl; auto.
    + intros [-> | ->]; vm_compute; reflexivity.
Qed.

End TextFacts.

(* ================================================================== *)
(** * DetailResolver *)
(* ================================================================== *)

Section DetailFacts.

Variable L : pylib.







Lemma fetch_detail_total c u w :
  exists link, _fetch_detail_link L c u w = (Ok link, snd (client_get c u w)).
Proof.
  unfold _fetch_detail_link, bind, try_except, ret, lift.
  destruct (client_get c u w) as [[r|e] w1]; simpl; eauto.
  destruct (status_code r =? 200)%Z; eauto.
  destruct (_extract_magnet_from_detail L (text r)); eauto.
Qed.


End DetailFacts.

(* ================================================================== *)
(** * TableExtractor *)
(* ================================================================== *)

Section TableFacts.

Variable L : pylib.

Lemma retained_time_cell tr td0 a td3 :
  retained tr = Some (td0, a, td3) -> time_cell tr = Some td0.
Proof.
  unfold retained, time_cell.
  destruct (find_all_children "td" tr) as [|x0 [|x1 [|x2 [|x3 l]]]];
    try discriminate.
  destruct (find_a_href x2); [|discriminate].
  intros E; inversion E; reflexivity.
Qed.

Lemma retained_needs_time_cell tr :
  time_cell tr = None -> retained tr = None.
Proof.
  unfold retained, time_cell.
  destruct (find_all_children "td" tr) as [|x0 [|x1 [|x2 [|x3 l]]]];
    auto; discriminate.
Qed.

(** One iteration of the loop, by cases on the row. *)
Lemma parse_rows_cons tr rest now oc k results cnt w :
  parse_rows L (tr :: rest) now oc k results cnt w =
  match time_cell tr with
  | None => parse_rows L rest now oc k results cnt w
  | Some td0 =>
      match parse_cn_time_at (_clean_text (get_text td0)) now with
      | Raise e => (Raise e, w)
      | Ok dt =>
          match retained tr with
          | None => parse_rows L rest now oc k results cnt w
          | Some row =>
              match urljoin L BASE_URL (row_href row) with
              | Raise e => (Raise e, w)
              | Ok d =>
                  match oc with
                  | Some c =>
                      if (cnt <? k)%Z then
                        match _fetch_detail_link L c d w with
                        | (Ok link, w1) =>
                            parse_rows L rest now oc k
                              (results ++ [record_of L row dt link])
                              (cnt + 1)%Z w1
                        | (Raise e, w1) => (Raise e, w1)
                        end
                      else
                        parse_rows L rest now oc k
                          (results ++ [record_of L row dt d]) cnt w
                  | None =>
                      parse_rows L rest now oc k
                        (results ++ [record_of L row dt d]) cnt w
                  end
              end
          end
      end
  end.
Proof.
  simpl. unfold time_cell, retained.
  destruct (find_all_children "td" tr) as [|x0 [|x1 [|x2 [|x3 l]]]];
    try reflexivity.
  unfold _parse_cn_time, bind, ret, lift.
  destruct (parse_cn_time_at (_clean_text (get_text x0)) now) as [dt|e];
    [|reflexivity].
  destruct (find_a_href x2) as [a|]; [|reflexivity].
  simpl row_href.
  destruct (urljoin L BASE_URL (href_of a)) as [d|e]; [|reflexivity].
  destruct oc as [c|]; [|reflexivity].
  destruct (cnt <? k)%Z; [|reflexivity].
  destruct (_fetch_detail_link L c d w) as [[link|e] w1]; reflexivity.
Qed.

Lemma resolve_first_zero c urls w : resolve_first L c 0 urls w = (urls, w).
Proof. destruct urls; reflexivity. Qed.

Lemma resolve_first_length c n :
  forall urls w, length (fst (resolve_first L c n urls w)) = length urls.
Proof.
  induction n as [|n IH]; intros urls w.
  - rewrite resolve_first_zero. reflexivity.
  - destruct urls as [|u urls]; [reflexivity|]. simpl.
    destruct (_fetch_detail_link L c u w) as [[link|e] w1];
      specialize (IH urls w1);
      destruct (resolve_first L c n urls w1) as [links w2]; simpl in *;
      congruence.
Qed.



Lemma client_get_log c u w :
  log (snd (client_get c u w)) = log w ++ [Ev_get c u].
Proof.
  unfold client_get. simpl.
  destruct (state_of c _); reflexivity.
Qed.


Lemma to_nat_succ k cnt :
  (cnt <? k)%Z = true -> Z.to_nat (k - cnt) = S (Z.to_nat (k - (cnt + 1))).
Proof. intros H. apply Z.ltb_lt in H. lia. Qed.

Lemma to_nat_zero k cnt : (cnt <? k)%Z = false -> Z.to_nat (k - cnt) = 0.
Proof. intros H. apply Z.ltb_ge in H. lia. Qed.

(** What the loop returns when it returns: one record per retained row,
    in order, with the URLs the resolver policy gives. *)
Lemma parse_rows_spec now oc k rows :
  forall results cnt w recs w',
    parse_rows L rows now oc k results cnt w = (Ok recs, w') ->
    exists dts durls,
      Forall2 (fun row dt => parse_cn_time_at (row_time_text row) now = Ok dt)
        (retained_rows rows) dts
      /\ Forall2 (fun row d => urljoin L BASE_URL (row_href row) = Ok d)
           (retained_rows rows) durls
      /\ recs = results
                ++ zip_records L (retained_rows rows) dts
                     (fst (resolved L oc k cnt durls w))
      /\ w' = snd (resolved L oc k cnt durls w).
Proof.
  induction rows as [|tr rest IH]; intros results cnt w recs w' H.
  - simpl in H. inversion H; subst. exists [], []. simpl.
    repeat split; try constructor.
    + rewrite app_nil_r. destruct oc; reflexivity.
    + destruct oc; reflexivity.
  - rewrite parse_rows_cons in H. simpl retained_rows.
    destruct (time_cell tr) as [td0|] eqn:Htc.
    2:{ rewrite (retained_needs_time_cell _ Htc). eauto. }
    destruct (parse_cn_time_at (_clean_text (get_text td0)) now) as [dt|e] eqn:Hdt;
      [|discriminate].
    destruct (retained tr) as [row|] eqn:Hr; [|eauto].
    assert (Htext : row_time_text row = _clean_text (get_text td0)).
    { destruct row as [[t0 a] t3].
      rewrite (retained_time_cell _ _ _ _ Hr) in Htc. inversion Htc.
      reflexivity. }
    destruct (urljoin L BASE_URL (row_href row)) as [d|e] eqn:Hd;
      [|discriminate].
    destruct oc as [c|].
    + destruct (cnt <? k)%Z eqn:Hk.
      * destruct (_fetch_detail_link L c d w) as [[link|e] w1] eqn:Hf;
          [|discriminate].
        destruct (IH _ _ _ _ _ H) as (dts & durls & F1 & F2 & -> & ->).
        exists (dt :: dts), (d :: durls).
        split; [constructor; [rewrite Htext|]; auto|].
        split; [constructor; auto|].
        unfold resolved. rewrite (to_nat_succ _ _ Hk). simpl. rewrite Hf.
        simpl. unfold resolved in *.
        destruct (resolve_first L c _ durls w1) as [links w2]. simpl.
        rewrite <- app_assoc. split; reflexivity.
      * destruct (IH _ _ _ _ _ H) as (dts & durls & F1 & F2 & -> & ->).
        exists (dt :: dts), (d :: durls).
        split; [constructor; [rewrite Htext|]; auto|].
        split; [constructor; auto|].
        unfold resolved. rewrite (to_nat_zero _ _ Hk), !resolve_first_zero.
        simpl. rewrite <- app_assoc. split; reflexivity.
    + destruct (IH _ _ _ _ _ H) as (dts & durls & F1 & F2 & -> & ->).
      exists (dt :: dts), (d :: durls).
      split; [constructor; [rewrite Htext|]; auto|].
      split; [constructor; auto|].
      simpl. rewrite <- app_assoc. split; reflexivity.
Qed.

Lemma parse_rows_total now oc k rows :
  forall results cnt w,
    times_parse rows now -> joins_succeed L rows ->
    exists recs w', parse_rows L rows now oc k results cnt w = (Ok recs, w').
Proof.
  induction rows as [|tr rest IH]; intros results cnt w Ht Hj.
  - simpl. unfold ret. eauto.
  - assert (Ht' : times_parse rest now).
    { intros t td0 Hin. apply Ht. simpl; auto. }
    rewrite parse_rows_cons.
    destruct (time_cell tr) as [td0|] eqn:Htc.
    2:{ apply IH; auto. intros row Hin. apply Hj. simpl.
        rewrite (retained_needs_time_cell _ Htc). auto. }
    destruct (Ht tr td0 (or_introl eq_refl) Htc) as (dt & ->).
    destruct (retained tr) as [row|] eqn:Hr.
    2:{ apply IH; auto. intros row Hin. apply Hj. simpl. rewrite Hr. auto. }
    assert (Hj' : joins_succeed L rest).
    { intros r Hin. apply Hj. simpl. rewrite Hr. simpl; auto. }
    destruct (Hj row) as (d & ->); [simpl; rewrite Hr; simpl; auto|].
    destruct oc as [c|]; [|apply IH; auto].
    destruct (cnt <? k)%Z; [|apply IH; auto].
    destruct (fetch_detail_total L c d w) as (link & ->). apply IH; auto.
Qed.

Lemma parse_today_table_unfold html oc k w :
  _parse_today_table L html oc k w =
  let w0 := snd (emit (Ev_parse html) w) in
  match listing_rows (html_parser L html) with
  | None => (Ok [], w0)
  | Some rows => parse_rows L rows (clock w) oc k [] 0%Z w0
  end.
Proof.
  unfold _parse_today_table, listing_rows, bind. simpl.
  destruct (select_one_data_list (html_parser L html)); reflexivity.
Qed.



Lemma zip_records_from rows :
  forall dts finals,
    length dts = length rows -> length finals = length rows ->
    Forall2 record_from rows (zip_records L rows dts finals).
Proof.
  induction rows as [|row rows IH]; intros [|dt dts] [|u finals] H1 H2;
    simpl in *; try discriminate; constructor; auto.
  destruct row as [[t0 a] t3]. repeat split.
Qed.

Lemma resolved_length oc k cnt durls w :
  length (fst (resolved L oc k cnt durls w)) = length durls.
Proof.
  unfold resolved. destruct oc; [apply resolve_first_length|reflexivity].
Qed.

(** What [_parse_today_table] returns when it returns. *)
Lemma parse_today_table_spec html oc k w recs w' :
  _parse_today_table L html oc k w = (Ok recs, w') ->
  let rows := retained_of (html_parser L html) in
  let w0 := snd (emit (Ev_parse html) w) in
  exists dts durls,
    Forall2 (fun row dt => parse_cn_time_at (row_time_text row) (clock w) = Ok dt)
      rows dts
    /\ Forall2 (fun row d => urljoin L BASE_URL (row_href row) = Ok d) rows durls
    /\ recs = zip_records L rows dts (fst (resolved L oc k 0 durls w0))
    /\ w' = snd (resolved L oc k 0 durls w0).
Proof.
  rewrite parse_today_table_unfold. unfold retained_of. simpl.
  destruct (listing_rows (html_parser L html)) as [rows|].
  - intros H. apply parse_rows_spec in H. exact H.
  - intros H. inversion H; subst. exists [], [].
    repeat split; try constructor; destruct oc; reflexivity.
Qed.

Lemma forallb_lstrip s : forallb isspace (lstrip s) = forallb isspace s.
Proof.
  induction s as [|c s IH]; simpl; auto.
  destruct (isspace c) eqn:E; simpl; [auto|rewrite E; reflexivity].
Qed.

Lemma lstrip_nil s : lstrip s = [] <-> forallb isspace s = true.
Proof.
  induction s as [|c s IH]; simpl; [tauto|].
  destruct (isspace c); simpl; [auto|]. split; discriminate.
Qed.

Lemma forallb_rev_eq (f : char -> bool) s : forallb f (rev s) = forallb f s.
Proof.
  induction s as [|c s IH]; simpl; auto.
  rewrite forallb_app, IH. simpl. rewrite andb_true_r. apply andb_comm.
Qed.

Lemma strip_nil s : strip s = [] <-> forallb isspace s = true.
Proof.
  unfold strip, rstrip.
  rewrite <- (forallb_lstrip s), <- (forallb_rev_eq isspace (lstrip s)),
    <- lstrip_nil.
  split; intros H.
  - apply (f_equal (@rev char)) in H. rewrite rev_involutive in H. exact H.
  - rewrite H. reflexivity.
Qed.

Lemma forallb_sub_spaces s :
  forall b, forallb isspace (sub_spaces b s) = forallb isspace s.
Proof.
  induction s as [|c s IH]; intros b; simpl; auto.
  destruct (isspace c) eqn:E; simpl.
  - destruct b; simpl; apply IH.
  - rewrite E. reflexivity.
Qed.

(** [_clean_text] gives the empty string exactly for blank text. *)
Lemma clean_text_nil s : _clean_text s = [] <-> forallb isspace s = true.
Proof.
  unfold _clean_text. rewrite strip_nil.
  assert (E : str_or s [] = s) by (destruct s; reflexivity).
  rewrite E, forallb_sub_spaces. tauto.
Qed.

End TableFacts.

Section TableClaims.

Variable L : pylib.


(** C9, amended. Every record [_parse_today_table] produces has a size
    and a quality that are not the empty string. Its title is the
    cleaned text of the row's title hyperlink, and it is the empty
    string exactly when that text is empty or all whitespace. *)
Theorem C9_record_fields (html : str) (oc : option client) (k : Z)
    (w : world) (recs : list AnimeInfo) (w' : world) :
  _parse_today_table L html oc k w = (Ok recs, w') ->
  Forall2
    (fun row r =>
       title r = _clean_text (get_text (row_anchor row))
       /\ (title r = [] <->
           forallb isspace (get_text (row_anchor row)) = true)
       /\ size r <> [] /\ quality r <> [])
    (retained_of (html_parser L html)) recs.
Proof.
  intros H.
  destruct (parse_today_table_spec L _ _ _ _ _ _ H) as (dts & durls & F1 & F2 & Hr & _).
  pose proof (eq_sym (Forall2_length F1)) as L1.
  pose proof (eq_sym (Forall2_length F2)) as L2.
  rewrite Hr.
  eapply Forall2_impl; [|apply zip_records_from;
                          rewrite ?resolved_length; auto].
  intros row r (Ht & Hs & Hq & _).
  split; [exact Ht|]. split; [rewrite Ht; apply clean_text_nil|].
  split.
  - rewrite Hs. apply TextFacts.guess_size_nonempty.
  - rewrite Hq. apply TextFacts.guess_quality_nonempty.
Qed.

(** A row is dropped exactly when it has fewer than four direct cells or
    no hyperlink in the third. *)
Lemma retained_none tr :
  retained tr = None <->
  length (find_all_children "td" tr) < 4
  \/ exists td2, nth_error (find_all_children "td" tr) 2 = Some td2
                 /\ find_a_href td2 = None.
Proof.
  unfold retained.
  destruct (find_all_children "td" tr) as [|x0 [|x1 [|x2 [|x3 l]]]]; simpl;
    try (split; [intros _; left; lia|reflexivity]).
  destruct (find_a_href x2) eqn:E.
  - split; [discriminate|]. intros [Hl | (td2 & E2 & Hn)]; [lia|].
    inversion E2; subst. congruence.
  - split; auto. intros _. right. exists x2. auto.
Qed.

(** The table extractor on inputs whose time cells and references are
    accepted: nothing for a document without the listing table, and
    otherwise exactly one record per retained row, in document order. *)
Theorem table_rows_in_order (html : str) (oc : option client) (k : Z)
    (w : world) :
  let doc := html_parser L html in
  (listing_rows doc = None -> fst (_parse_today_table L html oc k w) = Ok [])
  /\ (forall rows,
        listing_rows doc = Some rows ->
        times_parse rows (clock w) -> joins_succeed L rows ->
        exists recs,
          fst (_parse_today_table L html oc k w) = Ok recs
          /\ Forall2 record_from (retained_rows rows) recs)
  /\ (forall tr,
        retained tr = None <->
        length (find_all_children "td" tr) < 4
        \/ exists td2, nth_error (find_all_children "td" tr) 2 = Some td2
                       /\ find_a_href td2 = None).
Proof.
  intros doc. split; [|split].
  - intros Hn. rewrite parse_today_table_unfold. fold doc. rewrite Hn.
    reflexivity.
  - intros rows Hr Ht Hj.
    destruct (parse_rows_total L (clock w) oc k rows [] 0%Z
                (snd (emit (Ev_parse html) w)) Ht Hj) as (recs & w' & E).
    assert (E' : _parse_today_table L html oc k w = (Ok recs, w')).
    { rewrite parse_today_table_unfold. fold doc. rewrite Hr. exact E. }
    exists recs. rewrite E'. split; [reflexivity|].
    destruct (parse_today_table_spec L _ _ _ _ _ _ E')
      as (dts & durls & F1 & F2 & Hrec & _).
    unfold retained_of in *. fold doc in F1, F2, Hrec. rewrite Hr in *.
    rewrite Hrec. apply zip_records_from.
    + symmetry. apply (Forall2_length F1).
    + rewrite resolved_length. symmetry. apply (Forall2_length F2).
  - apply retained_none.
Qed.

End TableClaims.

(* ================================================================== *)
(** * ScrapeService: what [/api/scrape] answers *)
(* ================================================================== *)

Section ServiceClaims.

Variable L : pylib.

Lemma encode_models items :
  jsonable_encoder (PList (map PModel items)) = JArray (map model_json items).
Proof. simpl. rewrite map_map. reflexivity. Qed.

(** C2, amended. Whenever the orchestrator returns a non-empty record
    list, the response of the endpoint is the JSON array of all the
    records of that list, in order. *)
Theorem C2_response_is_whole_list (w : world) (items : list AnimeInfo)
    (msg : str) (w' : world) :
  scrape_comicat_today L w = (Ok (items, msg), w') ->
  items <> [] ->
  api_scrape L w = (Ok (JArray (map model_json items)), w').
Proof.
  intros H _. unfold api_scrape, scrape_latest, bind, try_except.
  rewrite H. cbn -[jsonable_encoder map]. unfold ret.
  rewrite encode_models. reflexivity.
Qed.

(** The tuple the orchestrator returns is never false, so the branch
    for "no data" is never taken: an empty record list is answered with
    an empty array. *)
Lemma empty_list_is_not_an_error (w : world) (msg : str) (w' : world) :
  scrape_comicat_today L w = (Ok ([], msg), w') ->
  api_scrape L w = (Ok (JArray []), w').
Proof.
  intros H. unfold api_scrape, scrape_latest, bind, try_except.
  rewrite H. reflexivity.
Qed.

End ServiceClaims.

(* ================================================================== *)
(** * TemporalParser *)
(* ================================================================== *)

Module TemporalFacts.
Import ReFacts Samples.

Lemma str_eqb_eq a : forall b, str_eqb a b = true -> a = b.
Proof.
  induction a as [|x a IH]; intros [|y b] H; simpl in H;
    try discriminate; auto.
  apply andb_prop in H. destruct H as [H1 H2].
  apply N.eqb_eq in H1. f_equal; auto.
Qed.

Lemma reads_all_times :
  forallb (fun h => forallb (fun mi => reads_time (py "今天") h mi
                                      && reads_time (py "昨天") h mi)
                      (seq 0 60))
    (seq 0 24) = true.
Proof. vm_compute. reflexivity. Qed.

Lemma reads_time_in_range h mi :
  h < 24 -> mi < 60 ->
  reads_time (py "今天") h mi = true /\ reads_time (py "昨天") h mi = true.
Proof.
  intros Hh Hm. pose proof reads_all_times as H.
  rewrite forallb_forall in H.
  specialize (H h). rewrite in_seq in H.
  assert (Hh' : 0 <= h < 0 + 24) by lia. specialize (H Hh').
  rewrite forallb_forall in H.
  specialize (H mi). rewrite in_seq in H.
  assert (Hm' : 0 <= mi < 0 + 60) by lia. specialize (H Hm').
  apply andb_prop in H. exact H.
Qed.

Lemma valid_datetime_date now :
  valid_datetime now = true ->
  (1 <= year now <= 9999 /\ 1 <= month now <= 12
   /\ 1 <= day now <= days_in_month (year now) (month now))%Z.
Proof.
  unfold valid_datetime. intros H.
  repeat (apply andb_prop in H; destruct H as [H ?]).
  repeat match goal with
         | X : (_ <=? _)%Z = true |- _ => apply Z.leb_le in X
         end. lia.
Qed.

Lemma datetime_new_ok y mo d h mi tz :
  (1 <= y <= 9999)%Z -> (1 <= mo <= 12)%Z ->
  (1 <= d <= days_in_month y mo)%Z ->
  (0 <= h <= 23)%Z -> (0 <= mi <= 59)%Z ->
  datetime_new y mo d h mi tz = Ok (Datetime y mo d h mi 0 0 tz).
Proof.
  intros Hy Hmo Hd Hh Hmi. unfold datetime_new.
  repeat match goal with
         | |- context [(?a <=? ?b)%Z] =>
             let E := fresh in
             destruct (Z.leb_spec a b) as [E|E]; [|lia]
         end.
  reflexivity.
Qed.

Lemma days_in_month_bounds y mo : (28 <= days_in_month y mo <= 31)%Z.
Proof.
  unfold days_in_month.
  destruct (mo =? 2)%Z; [destruct (is_leap y); lia|].
  destruct (_ || _); lia.
Qed.

Lemma minus_one_day_date now d :
  valid_datetime now = true -> minus_one_day now = Ok d ->
  (1 <= year d <= 9999 /\ 1 <= month d <= 12
   /\ 1 <= day d <= days_in_month (year d) (month d))%Z.
Proof.
  intros Hv. destruct (valid_datetime_date _ Hv) as (Hy & Hm & Hd).
  unfold minus_one_day.
  destruct (Z.ltb_spec 1 (day now)).
  { intros E; inversion E; subst; simpl. lia. }
  destruct (Z.ltb_spec 1 (month now)).
  { intros E; inversion E; subst; simpl.
    pose proof (days_in_month_bounds (year now) (month now - 1)). lia. }
  destruct (Z.ltb_spec 1 (year now)); [|discriminate].
  intros E; inversion E; subst; simpl.
  change (days_in_month (year now - 1) 12) with 31%Z. lia.
Qed.

Lemma reads_time_match dw h mi :
  reads_time dw h mi = true ->
  exists mo hh mm,
    re_match today_re (strip (time_text dw h mi)) = Some mo
    /\ groups mo = [dw; hh; mm]
    /\ int_of hh = Z.of_nat h /\ int_of mm = Z.of_nat mi.
Proof.
  unfold reads_time.
  destruct (re_match today_re _) as [mo|]; [|discriminate].
  destruct (groups mo) as [|g1 [|g2 [|g3 [|g4 l]]]] eqn:G; try discriminate.
  intros H. apply andb_prop in H. destruct H as [H H3].
  apply andb_prop in H. destruct H as [H1 H2].
  apply str_eqb_eq in H1. apply Z.eqb_eq in H2. apply Z.eqb_eq in H3.
  subst g1. exists mo, g2, g3. repeat split; auto.
Qed.

(** What [_parse_cn_time] does on the texts it is written for. For a
    [now] that is a [datetime]: "今天 HH:MM" with a time of day gives that
    time on [now]'s date; "昨天 HH:MM" gives it on the day before, when
    there is one; a text that neither pattern accepts gives [now]
    itself; and the three examples of the specification hold. Results
    built from a pattern carry the zone Asia/Taipei. *)
Theorem parse_cn_time_forms (now : datetime) :
  valid_datetime now = true ->
  (forall h mi, h < 24 -> mi < 60 ->
     parse_cn_time_at (time_text (py "今天") h mi) now
     = Ok (Datetime (year now) (month now) (day now)
             (Z.of_nat h) (Z.of_nat mi) 0 0 (Some TZ)))
  /\ (forall h mi d, h < 24 -> mi < 60 -> minus_one_day now = Ok d ->
        parse_cn_time_at (time_text (py "昨天") h mi) now
        = Ok (Datetime (year d) (month d) (day d)
                (Z.of_nat h) (Z.of_nat mi) 0 0 (Some TZ)))
  /\ (forall t, re_match today_re (strip t) = None ->
                re_match ymd_re (strip t) = None ->
                parse_cn_time_at t now = Ok now)
  /\ parse_cn_time_at (py "not a date") now = Ok now
  /\ parse_cn_time_at (py "今天 21:41") now0
     = Ok (Datetime 2025 10 26 21 41 0 0 (Some TZ))
  /\ parse_cn_time_at (py "昨天 08:12") now0
     = Ok (Datetime 2025 10 25 8 12 0 0 (Some TZ))
  /\ parse_cn_time_at (py "2025-10-26 21:41") now
     = Ok (Datetime 2025 10 26 21 41 0 0 (Some TZ)).
Proof.
  intros Hv. destruct (valid_datetime_date _ Hv) as (Hy & Hm & Hd).
  split; [|split; [|split; [|split; [|split; [|split]]]]].
  - intros h mi Hh Hmi.
    destruct (reads_time_in_range h mi Hh Hmi) as [R _].
    destruct (reads_time_match _ _ _ R) as (mo & hh & mm & E & G & I1 & I2).
    unfold parse_cn_time_at. rewrite E, G, I1, I2.
    replace (str_eqb (py "今天") (py "今天")) with true by reflexivity.
    unfold date_of. apply datetime_new_ok; lia.
  - intros h mi d Hh Hmi Hd1.
    destruct (reads_time_in_range h mi Hh Hmi) as [_ R].
    destruct (reads_time_match _ _ _ R) as (mo & hh & mm & E & G & I1 & I2).
    unfold parse_cn_time_at. rewrite E, G, I1, I2.
    replace (str_eqb (py "昨天") (py "今天")) with false by reflexivity.
    rewrite Hd1. unfold date_of.
    destruct (minus_one_day_date _ _ Hv Hd1) as (Y & M0 & D).
    apply datetime_new_ok; lia.
  - intros t E1 E2. unfold parse_cn_time_at. rewrite E1, E2. reflexivity.
  - unfold parse_cn_time_at.
    replace (re_match today_re (strip (py "not a date"))) with (@None match_obj)
      by (vm_compute; reflexivity).
    replace (re_match ymd_re (strip (py "not a date"))) with (@None match_obj)
      by (vm_compute; reflexivity).
    reflexivity.
  - vm_compute. reflexivity.
  - vm_compute. reflexivity.
  - unfold parse_cn_time_at.
    replace (re_match today_re (strip (py "2025-10-26 21:41")))
      with (@None match_obj) by (vm_compute; reflexivity).
    replace (re_match ymd_re (strip (py "2025-10-26 21:41")))
      with (Some (MatchObj (py "2025-10-26 21:41")
                    [py "2025"; py "10"; py "26"; py "21"; py "41"]))
      by (vm_compute; reflexivity).
    vm_compute. reflexivity.
Qed.

End TemporalFacts.

(* ================================================================== *)
(** * FetchOrchestrator *)
(* ================================================================== *)

Section OrchestratorFacts.

Variable L : pylib.

Lemma nth_error_at_length {A} (l : list A) o rest :
  nth_error (l ++ o :: rest) (length l) = Some o.
Proof. rewrite nth_error_app2, Nat.sub_diag; auto. Qed.

Lemma firstn_at_length {A} (l : list A) rest :
  firstn (length l) (l ++ rest) = l.
Proof.
  rewrite firstn_app, Nat.sub_diag, firstn_all. simpl. apply app_nil_r.
Qed.

Lemma skipn_past_length {A} (l : list A) o rest :
  skipn (S (length l)) (l ++ o :: rest) = rest.
Proof.
  rewrite skipn_app. rewrite skipn_all2 by lia.
  replace (S (length l) - length l) with 1 by lia. reflexivity.
Qed.

(** A [get] on a closed client is refused, and only the trace grows. *)
Lemma client_get_closed c u w :
  state_of c w = CLOSED ->
  client_get c u w
  = (Raise (RuntimeError
              "Cannot send a request, as the client has been closed."),
     snd (emit (Ev_get c u) w)).
Proof.
  intros H. unfold client_get.
  change (state_of c (snd (emit (Ev_get c u) w))) with (state_of c w).
  rewrite H. reflexivity.
Qed.


Lemma client_get_snapshot c u w :
  snapshot (snd (client_get c u w)) = snapshot w.
Proof. unfold client_get. destruct (state_of c _); reflexivity. Qed.

(** The loop changes the world only through [client.get]. *)
Lemma parse_rows_preserves (I : world -> Prop) now oc k rows :
  (forall c u w, oc = Some c -> I w -> I (snd (client_get c u w))) ->
  forall results cnt w,
    I w -> I (snd (parse_rows L rows now oc k results cnt w)).
Proof.
  intros Hget. induction rows as [|tr rest IH]; intros results cnt w Hw.
  - exact Hw.
  - rewrite parse_rows_cons.
    destruct (time_cell tr); [|auto].
    destruct (parse_cn_time_at _ now); [|exact Hw].
    destruct (retained tr); [|auto].
    destruct (urljoin L BASE_URL _) as [d|e]; [|exact Hw].
    destruct oc as [c|]; [|auto].
    destruct (cnt <? k)%Z; [|auto].
    destruct (fetch_detail_total L c d w) as (link & E). rewrite E.
    apply IH. apply Hget; auto.
Qed.

Lemma parse_today_table_preserves (I : world -> Prop) html oc k w :
  (forall c u w, oc = Some c -> I w -> I (snd (client_get c u w))) ->
  I (snd (emit (Ev_parse html) w)) ->
  I (snd (_parse_today_table L html oc k w)).
Proof.
  intros Hget Hw. rewrite parse_today_table_unfold. simpl.
  destruct (listing_rows (html_parser L html)); [|exact Hw].
  apply parse_rows_preserves; auto.
Qed.

Lemma parsed_in_app l1 l2 :
  parsed_in (l1 ++ l2) = parsed_in l1 ++ parsed_in l2.
Proof.
  induction l1 as [|e l1 IH]; simpl; auto.
  destruct e; simpl; rewrite ?IH; auto.
Qed.

Lemma parse_today_table_snapshot html oc k w :
  snapshot (snd (_parse_today_table L html oc k w)) = snapshot w.
Proof.
  apply (parse_today_table_preserves (fun w' => snapshot w' = snapshot w)).
  - intros c u w0 _ H. rewrite client_get_snapshot. exact H.
  - reflexivity.
Qed.


Lemma parse_today_table_closed html c k w :
  state_of c w = CLOSED ->
  sent (snd (_parse_today_table L html (Some c) k w)) = sent w
  /\ state_of c (snd (_parse_today_table L html (Some c) k w)) = CLOSED.
Proof.
  intros H.
  apply (parse_today_table_preserves
           (fun w' => sent w' = sent w /\ state_of c w' = CLOSED)).
  - intros c' u w0 E [H1 H2]. inversion E; subst c'.
    rewrite (client_get_closed _ _ _ H2). simpl. auto.
  - simpl. auto.
Qed.



Ltac proj :=
  cbn [fst snd clock environ net sent snapshot writable clients log
       text c_state c_headers].

(** Runs [scrape_comicat_today] up to the answer of the network. *)
Ltac run_scrape :=
  unfold scrape_comicat_today, bind, environ_get, httpx_Client, with_client,
    client_enter, client_get, try_write_snapshot, try_except, write_snapshot,
    snapshot_exists, read_snapshot, client_exit, print, emit, state_of,
    headers_of, set_client, ret;
  repeat (progress (proj;
                    rewrite ?nth_error_at_length, ?firstn_at_length,
                      ?skipn_past_length)).






End OrchestratorFacts.

(* ================================================================== *)
(** * Table extraction: failures *)
(* ================================================================== *)

Section TableFailures.

Variable L : pylib.

(** The loop over a prefix of rows that are all accepted is the loop
    over the rest, from some later state. *)
Lemma parse_rows_app now oc k pre rest :
  forall results cnt w,
    times_parse pre now -> joins_succeed L pre ->
    exists results' cnt' w',
      parse_rows L (pre ++ rest) now oc k results cnt w
      = parse_rows L rest now oc k results' cnt' w'.
Proof.
  induction pre as [|tr pre IH]; intros results cnt w Ht Hj.
  - simpl. eauto.
  - assert (Ht' : times_parse pre now).
    { intros t td0 Hin. apply Ht. simpl; auto. }
    cbn [app]. rewrite parse_rows_cons.
    destruct (time_cell tr) as [td0|] eqn:Htc.
    2:{ apply IH; auto. intros row Hin. apply Hj. simpl.
        rewrite (retained_needs_time_cell _ Htc). auto. }
    destruct (Ht tr td0 (or_introl eq_refl) Htc) as (dt & ->).
    destruct (retained tr) as [row|] eqn:Hr.
    2:{ apply IH; auto. intros row Hin. apply Hj. simpl. rewrite Hr. auto. }
    assert (Hj' : joins_succeed L pre).
    { intros r Hin. apply Hj. simpl. rewrite Hr. simpl; auto. }
    destruct (Hj row) as (d & ->); [simpl; rewrite Hr; simpl; auto|].
    destruct oc as [c|]; [|apply IH; auto].
    destruct (cnt <? k)%Z; [|apply IH; auto].
    destruct (fetch_detail_total L c d w) as (link & ->). apply IH; auto.
Qed.

(** A loop that returns has accepted every time cell it read and every
    reference of a retained row. *)
Lemma parse_rows_returns now oc k rows :
  forall results cnt w recs w',
    parse_rows L rows now oc k results cnt w = (Ok recs, w') ->
    times_parse rows now /\ joins_succeed L rows.
Proof.
  induction rows as [|tr rest IH]; intros results cnt w recs w' E.
  - split; [intros t td0 []|intros row []].
  - rewrite parse_rows_cons in E.
    assert (Step : forall results1 cnt1 w1,
              parse_rows L rest now oc k results1 cnt1 w1 = (Ok recs, w') ->
              (forall td0, time_cell tr = Some td0 ->
                 exists dt,
                   parse_cn_time_at (_clean_text (get_text td0)) now = Ok dt) ->
              (forall row, retained tr = Some row ->
                 exists d, urljoin L BASE_URL (row_href row) = Ok d) ->
              times_parse (tr :: rest) now /\ joins_succeed L (tr :: rest)).
    { intros results1 cnt1 w1 E1 Ht Hj.
      destruct (IH _ _ _ _ _ E1) as [Ht' Hj']. split.
      - intros t td0 [<- | Hin] Htc; [apply Ht; exact Htc|].
        apply (Ht' t td0 Hin Htc).
      - intros row Hin. simpl in Hin.
        destruct (retained tr) as [row0|] eqn:Hr; [|apply Hj'; exact Hin].
        destruct Hin as [<- | Hin]; [apply Hj; reflexivity|].
        apply Hj'; exact Hin. }
    destruct (time_cell tr) as [td0|] eqn:Htc.
    2:{ apply (Step _ _ _ E); [discriminate|].
        intros row Hr. rewrite (retained_needs_time_cell _ Htc) in Hr.
        discriminate. }
    destruct (parse_cn_time_at _ now) as [dt|e] eqn:Hdt; [|discriminate].
    assert (Ht : forall td1, Some td0 = Some td1 ->
              exists dt1,
                parse_cn_time_at (_clean_text (get_text td1)) now = Ok dt1).
    { intros td1 E1. injection E1 as <-. eauto. }
    destruct (retained tr) as [row|] eqn:Hr.
    2:{ apply (Step _ _ _ E Ht). discriminate. }
    destruct (urljoin L BASE_URL (row_href row)) as [d|e] eqn:Hd;
      [|discriminate].
    assert (Hj : forall row1, Some row = Some row1 ->
              exists d1, urljoin L BASE_URL (row_href row1) = Ok d1).
    { intros row1 E1. injection E1 as <-. eauto. }
    destruct oc as [c|]; [|apply (Step _ _ _ E Ht Hj)].
    destruct (cnt <? k)%Z; [|apply (Step _ _ _ E Ht Hj)].
    destruct (_fetch_detail_link L c d w) as [[link|e] w1]; [|discriminate].
    apply (Step _ _ _ E Ht Hj).
Qed.

(** [_parse_today_table] is all or nothing. On a document with the
    listing table it returns exactly when every time cell it reads is
    accepted by [_parse_cn_time] and every reference of a retained row
    by [urljoin]; the first row whose time cell is refused makes the
    whole call raise that row's exception, the rows before it
    notwithstanding, and so does the first retained row whose reference
    is refused. *)
Theorem table_all_or_nothing (html : str) (oc : option client) (k : Z)
    (w : world) (rows : list node) :
  listing_rows (html_parser L html) = Some rows ->
  ((exists recs, fst (_parse_today_table L html oc k w) = Ok recs)
   <-> times_parse rows (clock w) /\ joins_succeed L rows)
  /\ (forall pre tr post td0 e,
        rows = pre ++ tr :: post ->
        times_parse pre (clock w) -> joins_succeed L pre ->
        time_cell tr = Some td0 ->
        parse_cn_time_at (_clean_text (get_text td0)) (clock w) = Raise e ->
        fst (_parse_today_table L html oc k w) = Raise e)
  /\ (forall pre tr post row dt e,
        rows = pre ++ tr :: post ->
        times_parse pre (clock w) -> joins_succeed L pre ->
        retained tr = Some row ->
        parse_cn_time_at (row_time_text row) (clock w) = Ok dt ->
        urljoin L BASE_URL (row_href row) = Raise e ->
        fst (_parse_today_table L html oc k w) = Raise e).
Proof.
  intros Hr.
  assert (U : _parse_today_table L html oc k w
              = parse_rows L rows (clock w) oc k [] 0%Z
                  (snd (emit (Ev_parse html) w))).
  { rewrite parse_today_table_unfold. cbv zeta. rewrite Hr. reflexivity. }
  rewrite U. split; [split|split].
  - intros (recs & E).
    destruct (parse_rows L rows (clock w) oc k [] 0%Z
                (snd (emit (Ev_parse html) w))) as [r w'] eqn:P.
    simpl in E. subst r. exact (parse_rows_returns _ _ _ _ _ _ _ _ _ P).
  - intros [Ht Hj].
    destruct (parse_rows_total L (clock w) oc k rows [] 0%Z
                (snd (emit (Ev_parse html) w)) Ht Hj) as (recs & w' & ->).
    exists recs. reflexivity.
  - intros pre tr post td0 e -> Ht Hj Htc Hbad.
    destruct (parse_rows_app (clock w) oc k pre (tr :: post) [] 0%Z
                (snd (emit (Ev_parse html) w)) Ht Hj)
      as (results' & cnt' & w' & ->).
    rewrite parse_rows_cons, Htc, Hbad. reflexivity.
  - intros pre tr post [[td0 a] td3] dt e -> Ht Hj Hret Hdt Hbad.
    destruct (parse_rows_app (clock w) oc k pre (tr :: post) [] 0%Z
                (snd (emit (Ev_parse html) w)) Ht Hj)
      as (results' & cnt' & w' & ->).
    rewrite parse_rows_cons, (retained_time_cell _ _ _ _ Hret).
    unfold row_time_text in Hdt. rewrite Hdt, Hret, Hbad. reflexivity.
Qed.

End TableFailures.

(* ================================================================== *)
(** * Text normalisation *)
(* ================================================================== *)

Module CleanFacts.

Lemma lstrip_snoc l c :
  isspace c = false -> lstrip (l ++ [c]) = lstrip l ++ [c].
Proof.
  intros Hc. induction l as [|x l IH]; simpl.
  - rewrite Hc. reflexivity.
  - destruct (isspace x); auto.
Qed.

Lemma lstrip_head_not_space s :
  match lstrip s with [] => True | c :: _ => isspace c = false end.
Proof.
  induction s as [|x s IH]; simpl; auto.
  destruct (isspace x) eqn:E; auto.
Qed.

Lemma lstrip_fixed c s : isspace c = false -> lstrip (c :: s) = c :: s.
Proof. intros H. simpl. rewrite H. reflexivity. Qed.

Lemma rstrip_cons c s :
  isspace c = false -> rstrip (c :: s) = c :: rstrip s.
Proof.
  intros Hc. unfold rstrip. simpl.
  rewrite (lstrip_snoc _ _ Hc), rev_app_distr. reflexivity.
Qed.

Lemma rstrip_nil : rstrip [] = [].
Proof. reflexivity. Qed.

Lemma trimmed_cons_snoc c l d :
  isspace c = false -> isspace d = false -> trimmed (c :: l ++ [d]) = true.
Proof.
  intros Hc Hd. unfold trimmed.
  change (c :: l ++ [d]) with ((c :: l) ++ [d]).
  rewrite last_last, Hc, Hd. reflexivity.
Qed.

(** What [strip] returns has no whitespace at either end. *)
Lemma strip_trimmed s : trimmed (strip s) = true.
Proof.
  unfold strip.
  pose proof (lstrip_head_not_space s) as H.
  destruct (lstrip s) as [|c t]; [reflexivity|].
  rewrite (rstrip_cons _ _ H). unfold rstrip.
  pose proof (lstrip_head_not_space (rev t)) as H2.
  destruct (lstrip (rev t)) as [|d u] eqn:E.
  - unfold trimmed. simpl. rewrite H. reflexivity.
  - cbn [rev]. apply trimmed_cons_snoc; auto.
Qed.

(** A string without whitespace at either end is left alone by [strip]. *)
Lemma strip_of_trimmed s : trimmed s = true -> strip s = s.
Proof.
  destruct s as [|c s]; [reflexivity|].
  unfold trimmed. intros H. apply andb_prop in H. destruct H as [H1 H2].
  apply negb_true_iff in H1. apply negb_true_iff in H2.
  unfold strip. rewrite (lstrip_fixed _ _ H1).
  unfold rstrip.
  destruct (rev (c :: s)) as [|d u] eqn:E.
  { apply (f_equal (@length char)) in E. rewrite length_rev in E.
    discriminate. }
  assert (Hd : last (c :: s) c = d).
  { apply (f_equal (@rev char)) in E. rewrite rev_involutive in E.
    rewrite E. simpl. apply last_last. }
  rewrite Hd in H2. rewrite (lstrip_fixed _ _ H2), <- E.
  apply rev_involutive.
Qed.

Lemma tidy_weaken s : tidy true s = true -> tidy false s = true.
Proof.
  destruct s as [|c s]; simpl; auto.
  destruct (isspace c); auto.
  intros H. apply andb_prop in H. destruct H as [H _].
  apply andb_prop in H. destruct H as [_ H]. discriminate.
Qed.

Lemma tidy_sub_spaces s : forall b, tidy b (sub_spaces b s) = true.
Proof.
  induction s as [|c s IH]; intros b; simpl; auto.
  destruct (isspace c) eqn:E.
  - destruct b; [apply IH|].
    simpl. change (isspace 32) with true. simpl. apply IH.
  - simpl. rewrite E. apply IH.
Qed.

(** A tidy string is a fixed point of the whitespace substitution. *)
Lemma sub_spaces_tidy s : forall b, tidy b s = true -> sub_spaces b s = s.
Proof.
  induction s as [|c s IH]; intros b H; simpl in *; auto.
  destruct (isspace c) eqn:E.
  - apply andb_prop in H. destruct H as [H H3].
    apply andb_prop in H. destruct H as [H1 H2].
    apply N.eqb_eq in H1. apply negb_true_iff in H2. subst b c.
    rewrite (IH true H3). reflexivity.
  - rewrite (IH false H). reflexivity.
Qed.

Lemma tidy_lstrip s : forall b, tidy b s = true -> tidy b (lstrip s) = true.
Proof.
  induction s as [|c s IH]; intros b H; simpl in *; auto.
  destruct (isspace c) eqn:E.
  - apply andb_prop in H. destruct H as [H H3].
    apply andb_prop in H. destruct H as [_ H2].
    apply negb_true_iff in H2. subst b.
    (* after one space, the rest starts with no space *)
    destruct s as [|d s]; [reflexivity|]. simpl in *.
    destruct (isspace d) eqn:Ed.
    + apply andb_prop in H3. destruct H3 as [H3 _].
      apply andb_prop in H3. destruct H3 as [_ H3]. discriminate.
    + simpl. rewrite ?Ed. exact H3.
  - simpl. rewrite E. exact H.
Qed.

Lemma tidy_app_inv s t : forall b, tidy b (s ++ t) = true -> tidy b s = true.
Proof.
  induction s as [|c s IH]; intros b H; simpl in *; auto.
  destruct (isspace c).
  - apply andb_prop in H. destruct H as [H H3]. rewrite H. simpl. eauto.
  - eauto.
Qed.

Lemma rstrip_prefix s : exists t, s = rstrip s ++ t.
Proof.
  unfold rstrip.
  assert (H : forall l, exists t, l = t ++ lstrip l).
  { induction l as [|x l IH]; simpl.
    - exists []. reflexivity.
    - destruct (isspace x).
      + destruct IH as (t & E). exists (x :: t). simpl. congruence.
      + exists []. reflexivity. }
  destruct (H (rev s)) as (t & E). exists (rev t).
  rewrite <- rev_app_distr, <- E, rev_involutive. reflexivity.
Qed.

Lemma tidy_strip s : tidy false s = true -> tidy false (strip s) = true.
Proof.
  intros H. unfold strip.
  apply tidy_lstrip in H.
  destruct (rstrip_prefix (lstrip s)) as (t & E).
  rewrite E in H. eapply tidy_app_inv; eauto.
Qed.

(** The normal form of [_clean_text], and its idempotence: the result
    has no whitespace at either end, its only whitespace characters are
    single spaces between other characters, and cleaning it again
    changes nothing. *)
Theorem clean_text_normal_form (s : str) :
  trimmed (_clean_text s) = true
  /\ tidy false (_clean_text s) = true
  /\ _clean_text (_clean_text s) = _clean_text s
  /\ (forall t, trimmed t = true -> tidy false t = true -> _clean_text t = t).
Proof.
  assert (Hfix : forall t, trimmed t = true -> tidy false t = true ->
                           _clean_text t = t).
  { intros t Ht Hy. unfold _clean_text.
    assert (E : str_or t [] = t) by (destruct t; reflexivity).
    rewrite E, (sub_spaces_tidy _ _ Hy). apply strip_of_trimmed; auto. }
  assert (H1 : trimmed (_clean_text s) = true) by apply strip_trimmed.
  assert (H2 : tidy false (_clean_text s) = true).
  { unfold _clean_text. apply tidy_strip, tidy_sub_spaces. }
  auto.
Qed.

End CleanFacts.

(* ================================================================== *)
(** * Detail resolution: effects *)
(* ================================================================== *)

Section DetailEffects.

Variable L : pylib.


Lemma client_get_sent c u w :
  sent (snd (client_get c u w)) <= S (sent w)
  /\ (state_of c w = CLOSED -> sent (snd (client_get c u w)) = sent w).
Proof.
  unfold client_get.
  change (state_of c (snd (emit (Ev_get c u) w))) with (state_of c w).
  destruct (state_of c w); simpl; split; auto; discriminate.
Qed.

Lemma client_get_keeps_snapshot c u w :
  snapshot (snd (client_get c u w)) = snapshot w.
Proof. unfold client_get. destruct (state_of c _); reflexivity. Qed.

(** The footprint of one detail resolution: it never raises, never
    touches the snapshot file, records exactly one [get] on the trace and
    sends at most one request, none at all on a closed client, where it
    answers the address it was given; and for a non-empty address the
    link it answers is not empty. *)
Theorem fetch_detail_footprint (c : client) (u : str) (w : world) :
  exists link,
    fst (_fetch_detail_link L c u w) = Ok link
    /\ (u <> [] -> link <> [])
    /\ snapshot (snd (_fetch_detail_link L c u w)) = snapshot w
    /\ log (snd (_fetch_detail_link L c u w)) = log w ++ [Ev_get c u]
    /\ sent (snd (_fetch_detail_link L c u w)) <= S (sent w)
    /\ (state_of c w = CLOSED ->
        link = u /\ sent (snd (_fetch_detail_link L c u w)) = sent w).
Proof.
  destruct (client_get_sent c u w) as [S1 S2].
  pose proof (client_get_keeps_snapshot c u w) as S3.
  pose proof (client_get_log c u w) as S4.
  assert (Hc : state_of c w = CLOSED -> exists e, fst (client_get c u w) = Raise e).
  { intros H. unfold client_get.
    change (state_of c (snd (emit (Ev_get c u) w))) with (state_of c w).
    rewrite H. simpl. eauto. }
  unfold _fetch_detail_link, bind, try_except, ret, lift.
  destruct (client_get c u w) as [[r|e] w1]; simpl in *.
  - assert (Hopen : state_of c w = CLOSED -> False).
    { intros Hx. destruct (Hc Hx). discriminate. }
    destruct (status_code r =? 200)%Z.
    + destruct (_extract_magnet_from_detail L (text r)) as [mg|e]; simpl.
      * exists (str_or mg u). repeat split; auto; try tauto.
        destruct mg; simpl; auto. discriminate.
      * exists u. repeat split; auto; tauto.
    + exists u. repeat split; auto; tauto.
  - exists u. repeat split; auto.
Qed.

Lemma fetch_detail_world c u w :
  snd (_fetch_detail_link L c u w) = snd (client_get c u w).
Proof.
  destruct (fetch_detail_total L c u w) as (link & E). rewrite E. reflexivity.
Qed.

Lemma parse_rows_sent now oc k rows :
  forall results cnt w,
    sent (snd (parse_rows L rows now oc k results cnt w))
    <= sent w + Z.to_nat (k - cnt).
Proof.
  induction rows as [|tr rest IH]; intros results cnt w.
  - simpl. lia.
  - rewrite parse_rows_cons.
    destruct (time_cell tr); [|auto].
    destruct (parse_cn_time_at _ now) as [dt|e]; [|simpl; lia].
    destruct (retained tr) as [row|]; [|auto].
    destruct (urljoin L BASE_URL _) as [d|e]; [|simpl; lia].
    destruct oc as [c|]; [|auto].
    destruct (cnt <? k)%Z eqn:Hk; [|auto].
    pose proof (fetch_detail_world c d w) as Ew.
    destruct (client_get_sent c d w) as [S1 _].
    destruct (_fetch_detail_link L c d w) as [[link|e] w1]; simpl in Ew;
      subst w1; [|simpl; lia].
    specialize (IH (results ++ [record_of L row dt link]) (cnt + 1)%Z
                  (snd (client_get c d w))).
    apply Z.ltb_lt in Hk. lia.
Qed.

(** Without budget, or without a client, the loop leaves the world as it
    is. *)
Lemma parse_rows_idle now oc k rows :
  forall results cnt w,
    oc = None \/ (k <= cnt)%Z ->
    snd (parse_rows L rows now oc k results cnt w) = w.
Proof.
  induction rows as [|tr rest IH]; intros results cnt w H.
  - reflexivity.
  - rewrite parse_rows_cons.
    destruct (time_cell tr); [|auto].
    destruct (parse_cn_time_at _ now); [|reflexivity].
    destruct (retained tr); [|auto].
    destruct (urljoin L BASE_URL _) as [d|e]; [|reflexivity].
    destruct oc as [c|]; [|auto].
    destruct (Z.ltb_spec cnt k); [|auto].
    destruct H as [H|H]; [discriminate|lia].
Qed.

(** The request amplification of [_parse_today_table] is capped whatever
    its outcome, an exception included: it sends at most [max_detail]
    requests and never touches the snapshot file; without a client, or
    with a cap that is not positive, its only effect is the trace entry
    of the call. *)
Theorem table_request_cap (html : str) (oc : option client) (k : Z)
    (w : world) :
  sent (snd (_parse_today_table L html oc k w)) <= sent w + Z.to_nat k
  /\ snapshot (snd (_parse_today_table L html oc k w)) = snapshot w
  /\ (oc = None \/ (k <= 0)%Z ->
      snd (_parse_today_table L html oc k w) = snd (emit (Ev_parse html) w)).
Proof.
  split; [|split].
  - rewrite parse_today_table_unfold. cbv zeta.
    destruct (listing_rows (html_parser L html)) as [rows|]; [|simpl; lia].
    pose proof (parse_rows_sent (clock w) oc k rows [] 0%Z
                  (snd (emit (Ev_parse html) w))) as H.
    rewrite Z.sub_0_r in H. exact H.
  - apply parse_today_table_snapshot.
  - intros H. rewrite parse_today_table_unfold. cbv zeta.
    destruct (listing_rows (html_parser L html)) as [rows|]; [|reflexivity].
    apply parse_rows_idle. exact H.
Qed.

End DetailEffects.

(* ================================================================== *)
(** * Orchestrator: outcomes *)
(* ================================================================== *)

Section OrchestratorOutcomes.

Variable L : pylib.

Ltac proj :=
  cbn [fst snd clock environ net sent snapshot writable clients log
       text c_state c_headers].

Ltac run_scrape :=
  unfold scrape_comicat_today, bind, environ_get, httpx_Client, with_client,
    client_enter, client_get, try_write_snapshot, try_except, write_snapshot,
    snapshot_exists, read_snapshot, client_exit, print, emit, state_of,
    headers_of, set_client, ret;
  repeat (progress (proj;
                    rewrite ?nth_error_at_length, ?firstn_at_length,
                      ?skipn_past_length)).

Ltac norm_clients :=
  repeat (progress (proj;
                    rewrite ?nth_error_at_length, ?firstn_at_length,
                      ?skipn_past_length)).

Lemma Forall2_right_In {A B} (R : A -> B -> Prop) l1 l2 :
  Forall2 R l1 l2 -> forall b, In b l2 -> exists a, In a l1 /\ R a b.
Proof.
  induction 1; intros b Hb; [destruct Hb|].
  destruct Hb as [<- | Hb].
  - exists x. simpl; auto.
  - destruct (IHForall2 b Hb) as (a & Ha & Hr). exists a. simpl; auto.
Qed.

(** Every record of the table parser carries the source label and a
    size and a quality that are not empty. *)
Lemma parsed_record_fields html oc k w recs w' :
  _parse_today_table L html oc k w = (Ok recs, w') ->
  forall r, In r recs ->
            source r = py "comicat.org" /\ size r <> [] /\ quality r <> [].
Proof.
  intros H r Hr.
  destruct (parse_today_table_spec L _ _ _ _ _ _ H)
    as (dts & durls & F1 & F2 & Hrec & _).
  assert (F : Forall2 record_from (retained_of (html_parser L html)) recs).
  { rewrite Hrec. apply zip_records_from.
    - symmetry. apply (Forall2_length F1).
    - rewrite resolved_length. symmetry. apply (Forall2_length F2). }
  destruct (Forall2_right_In _ _ _ F r Hr) as (row & _ & (_ & Hs & Hq & Hsrc)).
  split; [exact Hsrc|]. split.
  - rewrite Hs. apply TextFacts.guess_size_nonempty.
  - rewrite Hq. apply TextFacts.guess_quality_nonempty.
Qed.

Lemma In_firstn {A} n (l : list A) x : In x (firstn n l) -> In x l.
Proof.
  intros H. rewrite <- (firstn_skipn n l). apply in_or_app. auto.
Qed.

Lemma firstn_length_5 {A} (l : list A) : length (firstn 5 l) <= 5.
Proof. rewrite length_firstn. lia. Qed.

(** Names the call of the table parser in the goal [run] and brings in
    what is known of its records. *)
Ltac name_parse run F :=
  set (run := _parse_today_table _ _ _ _ _);
  let t := eval unfold run in run in
  match t with
  | _parse_today_table _ ?h ?c ?k ?w0 =>
      pose proof (parsed_record_fields h c k w0) as F;
      change (_parse_today_table L h c k w0) with run in F
  end.

(** Proves a disjunction of equations one side of which is an equation
    between identical terms, without comparing the others. *)
Ltac pick_side :=
  match goal with
  | |- ?x = ?x \/ _ => left; reflexivity
  | |- _ \/ ?x = ?x => right; reflexivity
  end.

Lemma scrape_at_most_five (w : world) (items : list AnimeInfo) (msg : str) :
  fst (scrape_comicat_today L w) = Ok (items, msg) -> length items <= 5.
Proof.
  run_scrape.
  destruct (net w (sent w) COMICAT_TODAY_URL) as [resp|e]; proj;
    [|discriminate].
  destruct (writable w); proj;
    destruct (_looks_like_captcha L (text resp)); proj;
    try (destruct (snapshot w); proj).
  all: try (intros E; injection E as <- <-; apply Nat.le_0_l).
  all: set (run := _parse_today_table _ _ _ _ _); clearbody run;
       destruct run as [[[|r0 recs]|e] w']; proj; try discriminate.
  all: intros E; injection E as <- <-.
  all: first [exact (Nat.le_0_l 5) | exact (firstn_length_5 (r0 :: recs))].
Qed.

(** The shape of what [scrape_comicat_today] returns: at most five
    records, each labelled "comicat.org" with a non-empty size and
    quality; an empty list comes with one of the two diagnostics, a
    non-empty one with "OK" or the notice that the cache was used. *)
Theorem scrape_result_shape (w : world) (items : list AnimeInfo) (msg : str) :
  fst (scrape_comicat_today L w) = Ok (items, msg) ->
  length items <= 5
  /\ (forall r, In r items ->
        source r = py "comicat.org" /\ size r <> [] /\ quality r <> [])
  /\ (items = [] -> msg = msg_no_cache \/ msg = msg_no_items)
  /\ (items <> [] -> msg = py "OK" \/ msg = msg_cache).
Proof.
  assert (Hnil : forall m, m = msg_no_cache \/ m = msg_no_items ->
            length (@nil AnimeInfo) <= 5
            /\ (forall r, In r (@nil AnimeInfo) ->
                  source r = py "comicat.org" /\ size r <> [] /\ quality r <> [])
            /\ (@nil AnimeInfo = [] -> m = msg_no_cache \/ m = msg_no_items)
            /\ (@nil AnimeInfo <> [] -> m = py "OK" \/ m = msg_cache)).
  { intros m Hm. split; [apply Nat.le_0_l|]. split; [intros r []|].
    split; [auto|]. intros H. destruct (H eq_refl). }
  assert (Hcons : forall r0 recs m,
            (forall r, In r (r0 :: recs) ->
               source r = py "comicat.org" /\ size r <> [] /\ quality r <> []) ->
            m = py "OK" \/ m = msg_cache ->
            length (firstn 5 (r0 :: recs)) <= 5
            /\ (forall r, In r (firstn 5 (r0 :: recs)) ->
                  source r = py "comicat.org" /\ size r <> [] /\ quality r <> [])
            /\ (firstn 5 (r0 :: recs) = [] -> m = msg_no_cache \/ m = msg_no_items)
            /\ (firstn 5 (r0 :: recs) <> [] -> m = py "OK" \/ m = msg_cache)).
  { intros r0 recs m F Hm. split; [apply firstn_length_5|].
    split; [intros r Hr; apply F, (In_firstn 5); exact Hr|].
    split; [discriminate|auto]. }
  run_scrape.
  destruct (net w (sent w) COMICAT_TODAY_URL) as [resp|e]; proj;
    [|discriminate].
  destruct (writable w); proj;
    destruct (_looks_like_captcha L (text resp)); proj;
    try (destruct (snapshot w); proj).
  all: try (intros E; injection E as <- <-; apply Hnil; pick_side).
  all: name_parse run F; clearbody run;
       destruct run as [[[|r0 recs]|e] w']; proj; try discriminate.
  all: intros E; injection E as <- <-.
  all: try (apply Hnil; pick_side).
  all: apply Hcons; [apply (F _ _ eq_refl)|pick_side].
Qed.

Lemma parse_today_table_closed_clients html c k w :
  state_of c w = CLOSED ->
  clients (snd (_parse_today_table L html (Some c) k w)) = clients w.
Proof.
  intros H.
  assert (X : clients (snd (_parse_today_table L html (Some c) k w)) = clients w
              /\ state_of c (snd (_parse_today_table L html (Some c) k w)) = CLOSED).
  { apply (parse_today_table_preserves L
             (fun w' => clients w' = clients w /\ state_of c w' = CLOSED)).
    - intros c' u w0 E [H1 H2]. inversion E; subst c'.
      rewrite (client_get_closed _ _ _ H2). simpl. auto.
    - simpl. auto. }
  apply X.
Qed.

(** Names the call of the table parser in the goal [run], shows that its
    client is closed, and brings in that the call leaves the client
    store and the request count alone. *)
Ltac closed_call run Hcl S1 S2 :=
  set (run := _parse_today_table _ _ _ _ _);
  let t := eval unfold run in run in
  match t with
  | _parse_today_table _ ?h (Some ?c) ?k ?w0 =>
      assert (Hcl : state_of c w0 = CLOSED)
        by (unfold state_of; proj;
            rewrite ?firstn_at_length, ?nth_error_at_length; reflexivity);
      pose proof (parse_today_table_closed_clients h c k w0 Hcl) as S1;
      pose proof (proj1 (parse_today_table_closed L h c k w0 Hcl)) as S2;
      change (_parse_today_table L h (Some c) k w0) with run in S1, S2;
      cbn [clients sent] in S1, S2
  end.

(** The HTTP client of one invocation: exactly one client is created; it
    is closed when the invocation ends, however it ends; and its headers
    are the four browser headers, followed by a [Cookie] header holding
    the stripped value of [COMICAT_COOKIE] exactly when that value is
    not empty. *)
Theorem scrape_client_lifecycle (w : world) :
  let c := length (clients w) in
  let w' := snd (scrape_comicat_today L w) in
  length (clients w') = S c
  /\ state_of c w' = CLOSED
  /\ headers_of c w'
     = (if str_truthy (cookie_of w)
        then base_headers ++ [("Cookie"%string, cookie_of w)]
        else base_headers)
  /\ firstn c (clients w') = clients w.
Proof.
  cbv zeta. unfold cookie_of.
  assert (Hlen : forall (o : client_obj),
             length (clients w ++ [o]) = S (length (clients w))).
  { intros o. rewrite length_app. simpl. lia. }
  unfold headers_of at 1. unfold state_of at 1.
  run_scrape.
  destruct (net w (sent w) COMICAT_TODAY_URL) as [resp|e]; proj.
  2:{ norm_clients. rewrite ?Hlen, ?nth_error_at_length, ?firstn_at_length.
      auto. }
  destruct (writable w); proj;
    destruct (_looks_like_captcha L (text resp)); proj;
    try (destruct (snapshot w); proj).
  all: try (norm_clients;
            rewrite ?Hlen, ?nth_error_at_length, ?firstn_at_length; auto; fail).
  all: closed_call run Hcl S1 S2; clearbody run;
       destruct run as [[[|r0 recs]|e] w0]; proj; cbn [snd] in S1;
       rewrite S1; norm_clients;
       rewrite ?Hlen, ?nth_error_at_length, ?firstn_at_length; auto.
Qed.

(** A failure of the listing request is not caught: the invocation
    raises that very exception, after closing the client, with nothing
    parsed and the snapshot file untouched. *)
Theorem listing_failure_propagates (w : world) (e : exn) :
  net w (sent w) COMICAT_TODAY_URL = Raise e ->
  fst (scrape_comicat_today L w) = Raise e
  /\ snapshot (snd (scrape_comicat_today L w)) = snapshot w
  /\ parsed_in (log (snd (scrape_comicat_today L w))) = parsed_in (log w)
  /\ written_in (log (snd (scrape_comicat_today L w))) = written_in (log w)
  /\ state_of (length (clients w)) (snd (scrape_comicat_today L w)) = CLOSED.
Proof.
  intros Hn. unfold state_of at 1. run_scrape. rewrite Hn. proj.
  norm_clients.
  repeat split; auto.
  - rewrite !parsed_in_app. simpl. rewrite !app_nil_r. reflexivity.
  - clear. induction (log w) as [|ev l IH]; simpl; auto.
    destruct ev; simpl; auto. destruct ok; simpl; congruence.
Qed.

Lemma written_in_app l1 l2 :
  written_in (l1 ++ l2) = written_in l1 ++ written_in l2.
Proof.
  induction l1 as [|e l1 IH]; simpl; auto.
  destruct e; simpl; rewrite ?IH; auto. destruct ok; simpl; congruence.
Qed.




(** The endpoint never raises. Its response is either the JSON array of
    the at most five records the orchestrator returned, or, when the
    orchestrator raised, the object whose [error] is "Scrape failed: "
    followed by the message of the exception. It is never the "No new
    anime releases today." object. *)
Theorem api_scrape_total (w : world) :
  exists j,
    fst (api_scrape L w) = Ok j
    /\ (forall items msg,
          fst (scrape_comicat_today L w) = Ok (items, msg) ->
          j = JArray (map model_json items) /\ length items <= 5)
    /\ (forall e,
          fst (scrape_comicat_today L w) = Raise e ->
          j = JObject [(py "error",
                        JString (py "Scrape failed: " ++ py (exn_msg e)))])
    /\ j <> JObject [(py "error",
                      JString (py "No new anime releases today."))].
Proof.
  pose proof (scrape_at_most_five w) as Hshape.
  unfold api_scrape, scrape_latest, bind, try_except.
  destruct (scrape_comicat_today L w) as [[[items msg]|e] w'];
    cbn [fst snd] in Hshape |- *.
  - exists (JArray (map model_json items)).
    split.
    { unfold scrape_value, py_bool, negb, lift, py_getitem0, ret.
      cbn [fst snd]. rewrite encode_models. reflexivity. }
    split.
    { intros items0 msg0 E. injection E as <- <-.
      split; [reflexivity|]. exact (Hshape _ _ eq_refl). }
    split; [intros e E; discriminate E|].
    intros E; discriminate E.
  - exists (JObject [(py "error",
                      JString (py "Scrape failed: " ++ py (exn_msg e)))]).
    split; [reflexivity|].
    split; [intros items msg E; discriminate E|].
    split; [intros e0 E; injection E as <-; reflexivity|].
    intros E. injection E as E.
    revert E. generalize (py (exn_msg e)). intros m E.
    change (py "Scrape failed: " ++ m) with (83%N :: (py "crape failed: " ++ m)) in E.
    change (py "No new anime releases today.")
      with (78%N :: py "o new anime releases today.") in E.
    discriminate E.
Qed.

End OrchestratorOutcomes.

(* ================================================================== *)
(** * Time cells: what reaches the constructor *)
(* ================================================================== *)

Module TemporalRanges.
Import ReFacts Samples TimeTexts TemporalFacts.

Lemma ascii_digit_cases c :
  ascii_digit c ->
  In c [48; 49; 50; 51; 52; 53; 54; 55; 56; 57]%N.
Proof.
  unfold ascii_digit. intros H. simpl.
  assert (c = 48 \/ c = 49 \/ c = 50 \/ c = 51 \/ c = 52 \/ c = 53
          \/ c = 54 \/ c = 55 \/ c = 56 \/ c = 57)%N by lia.
  intuition.
Qed.

Lemma ascii_digit_class c :
  ascii_digit c ->
  isdigit c = true /\ isspace c = false
  /\ decimal_value c = Some (c - 48)%N
  /\ lit (chr "-") c = false /\ lit (chr ":") c = false
  /\ lit 20170 c = false /\ lit 26152 c = false.
Proof.
  intros H. apply ascii_digit_cases in H. simpl in H.
  repeat (destruct H as [<-|H]; [vm_compute; repeat split; reflexivity|]).
  destruct H.
Qed.

Lemma digit_char_ascii n : ascii_digit (digit_char n).
Proof.
  unfold ascii_digit, digit_char.
  pose proof (Z.mod_pos_bound n 10). lia.
Qed.

(** Greedy repetition: when [w] is as much as the repetition may take
    and the rest of the pattern accepts what follows, the first answer
    is the one found there. *)
Lemma rep_m_greedy A (p : char -> bool) (w : str) :
  forall lo hi s (k : str -> option A) x,
    forallb p w = true -> lo <= length w -> hi_ok hi (length w) ->
    (hi = Some (length w) \/ forall c s', s = c :: s' -> p c = false) ->
    k s = Some x ->
    rep_m p lo hi (w ++ s) k = Some x.
Proof.
  induction w as [|c w IH]; intros lo hi s k x Hw Hlo Hhi Hstop Hk.
  - simpl in *. assert (lo = 0) by lia. subst lo.
    destruct s as [|c s]; simpl; auto.
    destruct Hstop as [-> | Hstop].
    + rewrite andb_false_r. exact Hk.
    + rewrite (Hstop c s eq_refl). exact Hk.
  - simpl in Hw. apply andb_prop in Hw. destruct Hw as [Hp Hw].
    simpl. rewrite Hp.
    assert (Hal : hi_allows hi = true).
    { destruct hi as [[|h]|]; simpl in *; auto; lia. }
    rewrite Hal. simpl.
    rewrite (IH (pred lo) (option_map pred hi) s k x); auto.
    + simpl in Hlo. lia.
    + destruct hi as [h|]; simpl in *; auto; lia.
    + destruct Hstop as [-> | Hstop]; [left; reflexivity | right; exact Hstop].
Qed.

(** One step of the matcher on a subject whose characters are known by
    their classes: a repetition takes [w]; a test on a character is
    decided by the facts at hand. *)
Ltac decide_class :=
  first [ eassumption | reflexivity ].

Ltac take w :=
  match goal with
  | |- rep_m ?p ?lo ?hi ?l ?k = Some ?x =>
      let s := eval cbn [skipn length] in (skipn (length w) l) in
      apply (rep_m_greedy _ p w lo hi s k x);
      [ cbn [forallb];
        repeat match goal with
               | H : p _ = true |- _ => rewrite H
               end; reflexivity
      | cbn [length]; lia
      | cbn [hi_ok length]; try exact I; lia
      | first [ left; reflexivity
              | right; let c := fresh in let s' := fresh in let E := fresh in
                       intros c s' E; injection E as <- _; decide_class ]
      | cbv beta ]
  end.

Ltac pass :=
  match goal with
  | |- (if ?b then _ else _) = _ =>
      replace b with true by (symmetry; decide_class); cbv iota
  end.

Lemma ymd_re_reads c1 c2 c3 c4 c5 c6 c7 c8 c9 c10 c11 c12 :
  ascii_digit c1 -> ascii_digit c2 -> ascii_digit c3 -> ascii_digit c4 ->
  ascii_digit c5 -> ascii_digit c6 -> ascii_digit c7 -> ascii_digit c8 ->
  ascii_digit c9 -> ascii_digit c10 -> ascii_digit c11 -> ascii_digit c12 ->
  let t := [c1; c2; c3; c4; 45; c5; c6; 45; c7; c8; 32; c9; c10; 58;
            c11; c12]%N in
  strip t = t
  /\ re_match today_re t = None
  /\ re_match ymd_re t
     = Some (MatchObj t [[c1; c2; c3; c4]; [c5; c6]; [c7; c8]; [c9; c10];
                         [c11; c12]]).
Proof.
  intros H1 H2 H3 H4 H5 H6 H7 H8 H9 H10 H11 H12 t. subst t.
  repeat match goal with
         | H : ascii_digit ?c |- _ =>
             destruct (ascii_digit_class c H) as (? & ? & _ & ? & ? & ? & ?);
             clear H
         end.
  split; [|split].
  - unfold strip, rstrip. cbn [lstrip].
    replace (isspace c1) with false by (symmetry; assumption).
    cbn [rev app lstrip].
    replace (isspace c12) with false by (symmetry; assumption).
    reflexivity.
  - unfold re_match, match_here, today_re.
    change (lits lit (py "今天")) with (Cat (Chr (lit 20170)) (Chr (lit 22825))).
    change (lits lit (py "昨天")) with (Cat (Chr (lit 26152)) (Chr (lit 22825))).
    cbn [m].
    replace (lit 20170 c1) with false by (symmetry; assumption).
    replace (lit 26152 c1) with false by (symmetry; assumption).
    rewrite Nat.eqb_refl. reflexivity.
  - unfold re_match, match_here, ymd_re. cbn [m]. rewrite Nat.eqb_refl.
    take [c1; c2; c3; c4]. pass.
    take [c5; c6]. pass.
    take [c7; c8].
    take [32%N].
    take [c9; c10]. pass.
    take [c11; c12].
    reflexivity.
Qed.

Lemma first_answer {A} (a b : option A) x :
  a = Some x -> match a with Some y => Some y | None => b end = Some x.
Proof. intros ->. reflexivity. Qed.

Lemma today_re_reads dw c1 c2 c3 c4 :
  dw = py "今天" \/ dw = py "昨天" ->
  ascii_digit c1 -> ascii_digit c2 -> ascii_digit c3 -> ascii_digit c4 ->
  let t := dw ++ [32; c1; c2; 58; c3; c4]%N in
  strip t = t
  /\ re_match today_re t = Some (MatchObj t [dw; [c1; c2]; [c3; c4]]).
Proof.
  intros Hdw H1 H2 H3 H4 t. subst t.
  repeat match goal with
         | H : ascii_digit ?c |- _ =>
             destruct (ascii_digit_class c H) as (? & ? & _ & ? & ? & _ & _);
             clear H
         end.
  assert (S0 : forall a b, isspace a = false ->
             strip ([a; b; 32; c1; c2; 58; c3; c4])%N
             = [a; b; 32; c1; c2; 58; c3; c4]%N).
  { intros a b Ha. unfold strip, rstrip. cbn [lstrip]. rewrite Ha.
    cbn [rev app lstrip].
    replace (isspace c4) with false by (symmetry; assumption).
    reflexivity. }
  unfold re_match, match_here, today_re.
  change (lits lit (py "今天")) with (Cat (Chr (lit 20170)) (Chr (lit 22825))).
  change (lits lit (py "昨天")) with (Cat (Chr (lit 26152)) (Chr (lit 22825))).
  destruct Hdw as [-> | ->].
  - change (py "今天") with [20170; 22825]%N. cbn [app].
    split; [apply S0; reflexivity|].
    cbn [m]. rewrite Nat.eqb_refl.
    apply first_answer.
    pass. pass.
    take [32%N].
    take [c1; c2]. pass.
    take [c3; c4].
    reflexivity.
  - change (py "昨天") with [26152; 22825]%N. cbn [app].
    split; [apply S0; reflexivity|].
    cbn [m]. rewrite Nat.eqb_refl.
    change (lit 20170 26152) with false. cbv iota.
    pass. pass.
    take [32%N].
    take [c1; c2]. pass.
    take [c3; c4].
    reflexivity.
Qed.

Lemma int_of_two_digits n : (0 <= n < 100)%Z -> int_of (two_digits n) = n.
Proof.
  intros Hn. unfold int_of, two_digits. cbn [fold_left].
  destruct (ascii_digit_class _ (digit_char_ascii (n / 10)))
    as (_ & _ & -> & _).
  destruct (ascii_digit_class _ (digit_char_ascii n)) as (_ & _ & -> & _).
  unfold digit_char.
  replace (48 + Z.to_N ((n / 10) mod 10) - 48)%N
    with (Z.to_N ((n / 10) mod 10)) by lia.
  replace (48 + Z.to_N (n mod 10) - 48)%N with (Z.to_N (n mod 10)) by lia.
  pose proof (Z.mod_pos_bound n 10). pose proof (Z.mod_pos_bound (n / 10) 10).
  rewrite !Z2N.id by lia.
  pose proof (Z.div_mod n 10).
  assert (0 <= n / 10 < 10)%Z
    by (split; [apply Z.div_pos; lia | apply Z.div_lt_upper_bound; lia]).
  rewrite (Z.mod_small (n / 10) 10) by lia. lia.
Qed.

Lemma int_of_four_digits n : (0 <= n < 10000)%Z -> int_of (four_digits n) = n.
Proof.
  intros Hn. unfold int_of, four_digits. cbn [fold_left].
  destruct (ascii_digit_class _ (digit_char_ascii (n / 1000)))
    as (_ & _ & -> & _).
  destruct (ascii_digit_class _ (digit_char_ascii (n / 100)))
    as (_ & _ & -> & _).
  destruct (ascii_digit_class _ (digit_char_ascii (n / 10)))
    as (_ & _ & -> & _).
  destruct (ascii_digit_class _ (digit_char_ascii n)) as (_ & _ & -> & _).
  unfold digit_char.
  repeat match goal with
         | |- context [(48 + Z.to_N ?a - 48)%N] =>
             replace (48 + Z.to_N a - 48)%N with (Z.to_N a) by lia
         end.
  pose proof (Z.mod_pos_bound n 10). pose proof (Z.mod_pos_bound (n / 10) 10).
  pose proof (Z.mod_pos_bound (n / 100) 10).
  pose proof (Z.mod_pos_bound (n / 1000) 10).
  rewrite !Z2N.id by lia.
  Z.div_mod_to_equations. lia.
Qed.

Lemma datetime_new_cases y mo d hh mm tz :
  match datetime_new y mo d hh mm tz with
  | Ok t => t = Datetime y mo d hh mm 0 0 tz /\ valid_datetime t = true
  | Raise e => exn_class e = "ValueError"%string
  end.
Proof.
  unfold datetime_new.
  repeat match goal with
         | |- context [negb ?b] => destruct b eqn:?; cbn [negb]
         end; try reflexivity.
  split; [reflexivity|]. unfold valid_datetime. cbn.
  repeat match goal with
         | H : (_ && _)%bool = true |- _ =>
             apply andb_prop in H; destruct H as [? ?]
         end.
  repeat match goal with
         | H : _ = true |- _ => rewrite H; clear H
         end.
  reflexivity.
Qed.

Lemma datetime_new_hour y mo d hh mm tz :
  (1 <= y <= 9999)%Z -> (1 <= mo <= 12)%Z ->
  (1 <= d <= days_in_month y mo)%Z -> (23 < hh)%Z ->
  datetime_new y mo d hh mm tz = Raise (ValueError "hour must be in 0..23").
Proof.
  intros Hy Hmo Hd Hh. unfold datetime_new.
  repeat match goal with
         | |- context [(?a <=? ?b)%Z] =>
             let E := fresh in
             destruct (Z.leb_spec a b) as [E|E]; try lia
         end; reflexivity.
Qed.

Lemma datetime_new_minute y mo d hh mm tz :
  (1 <= y <= 9999)%Z -> (1 <= mo <= 12)%Z ->
  (1 <= d <= days_in_month y mo)%Z -> (0 <= hh <= 23)%Z -> (59 < mm)%Z ->
  datetime_new y mo d hh mm tz = Raise (ValueError "minute must be in 0..59").
Proof.
  intros Hy Hmo Hd Hh Hm. unfold datetime_new.
  repeat match goal with
         | |- context [(?a <=? ?b)%Z] =>
             let E := fresh in
             destruct (Z.leb_spec a b) as [E|E]; try lia
         end; reflexivity.
Qed.

(** Rewrites with an equation about [strip] or [re_match] whatever the
    way the subject is written. *)
Ltac read_with E :=
  match type of E with
  | strip _ = ?r =>
      match goal with
      | |- context [strip ?t] =>
          replace (strip t) with r by (symmetry; exact E)
      end
  | re_match ?re _ = ?r =>
      match goal with
      | |- context [re_match re ?t] =>
          replace (re_match re t) with r by (symmetry; exact E)
      end
  end.

(** What the first pattern does with a two-digit time of day. *)
Lemma parse_day_word dw (h mi : nat) now :
  dw = py "今天" \/ dw = py "昨天" -> h < 100 -> mi < 100 ->
  parse_cn_time_at (time_text dw h mi) now
  = match (if str_eqb dw (py "今天") then Ok (date_of now)
           else match minus_one_day now with
                | Ok d => Ok (date_of d)
                | Raise e => Raise e
                end) with
    | Ok (y, mo, d) =>
        datetime_new y mo d (Z.of_nat h) (Z.of_nat mi) (Some TZ)
    | Raise e => Raise e
    end.
Proof.
  intros Hdw Hh Hmi. unfold parse_cn_time_at, time_text, two_digits.
  change (py " ") with [32%N]. change (py ":") with [58%N].
  cbn [app].
  destruct (today_re_reads dw _ _ _ _ Hdw
              (digit_char_ascii (Z.of_nat h / 10))
              (digit_char_ascii (Z.of_nat h))
              (digit_char_ascii (Z.of_nat mi / 10))
              (digit_char_ascii (Z.of_nat mi))) as [S0 R].
  cbv zeta in S0, R. read_with S0. read_with R. cbn [groups].
  change [digit_char (Z.of_nat h / 10); digit_char (Z.of_nat h)]
    with (two_digits (Z.of_nat h)).
  change [digit_char (Z.of_nat mi / 10); digit_char (Z.of_nat mi)]
    with (two_digits (Z.of_nat mi)).
  rewrite !int_of_two_digits by lia. reflexivity.
Qed.

(** The time of day of a "今天"/"昨天" cell reaches the [datetime]
    constructor unchecked. For a [now] that is a [datetime] and a time
    written with two digits each: an hour above 23 raises [ValueError],
    and so does a minute above 59 when the hour is in range, for both
    day words; "昨天" raises [OverflowError] when [now] is on the first
    day of year 1, whatever the time; in no such case is the result
    [now]. *)
Theorem day_word_time_unchecked (now : datetime) (h mi : nat) :
  valid_datetime now = true -> h < 100 -> mi < 100 ->
  (24 <= h ->
     parse_cn_time_at (time_text (py "今天") h mi) now
     = Raise (ValueError "hour must be in 0..23"))
  /\ (h < 24 -> 60 <= mi ->
        parse_cn_time_at (time_text (py "今天") h mi) now
        = Raise (ValueError "minute must be in 0..59"))
  /\ (forall d, minus_one_day now = Ok d ->
        (24 <= h ->
           parse_cn_time_at (time_text (py "昨天") h mi) now
           = Raise (ValueError "hour must be in 0..23"))
        /\ (h < 24 -> 60 <= mi ->
              parse_cn_time_at (time_text (py "昨天") h mi) now
              = Raise (ValueError "minute must be in 0..59")))
  /\ (date_of now = (1, 1, 1)%Z ->
        parse_cn_time_at (time_text (py "昨天") h mi) now
        = Raise (OverflowError "date value out of range")).
Proof.
  intros Hv Hh Hmi.
  destruct (valid_datetime_date _ Hv) as (Hy & Hm & Hd).
  rewrite !parse_day_word by auto.
  replace (str_eqb (py "今天") (py "今天")) with true by reflexivity.
  replace (str_eqb (py "昨天") (py "今天")) with false by reflexivity.
  unfold date_of.
  split; [|split; [|split]].
  - intros H. apply datetime_new_hour; lia.
  - intros H1 H2. apply datetime_new_minute; lia.
  - intros d E. rewrite E.
    destruct (minus_one_day_date _ _ Hv E) as (Y & M0 & D).
    split.
    + intros H. apply datetime_new_hour; lia.
    + intros H1 H2. apply datetime_new_minute; lia.
  - intros E. injection E as Ey Em Ed. unfold minus_one_day.
    rewrite Ey, Em, Ed. reflexivity.
Qed.

(** An absolute "YYYY-MM-DD HH:MM" cell does not depend on [now]: its
    five numbers go to the [datetime] constructor as they are. The
    result is that date and time in zone Asia/Taipei exactly when they
    form a calendar date and a time of day; otherwise [ValueError] is
    raised (month 13, 30 February, hour 24, ...). *)
Theorem ymd_text_parsed (now : datetime) (y mo d h mi : Z) :
  (0 <= y < 10000)%Z -> (0 <= mo < 100)%Z -> (0 <= d < 100)%Z ->
  (0 <= h < 100)%Z -> (0 <= mi < 100)%Z ->
  parse_cn_time_at (ymd_text y mo d h mi) now
  = datetime_new y mo d h mi (Some TZ)
  /\ ((1 <= y /\ 1 <= mo <= 12 /\ 1 <= d <= days_in_month y mo
       /\ h <= 23 /\ mi <= 59)%Z ->
      parse_cn_time_at (ymd_text y mo d h mi) now
      = Ok (Datetime y mo d h mi 0 0 (Some TZ)))
  /\ (~ (1 <= y /\ 1 <= mo <= 12 /\ 1 <= d <= days_in_month y mo
         /\ h <= 23 /\ mi <= 59)%Z ->
      exists msg,
        parse_cn_time_at (ymd_text y mo d h mi) now
        = Raise (ValueError msg)).
Proof.
  intros Hy Hmo Hd Hh Hmi.
  assert (E : parse_cn_time_at (ymd_text y mo d h mi) now
              = datetime_new y mo d h mi (Some TZ)).
  { unfold parse_cn_time_at, ymd_text, four_digits, two_digits.
    change (py "-") with [45%N]. change (py " ") with [32%N].
    change (py ":") with [58%N]. cbn [app].
    destruct (ymd_re_reads _ _ _ _ _ _ _ _ _ _ _ _
                (digit_char_ascii (y / 1000)) (digit_char_ascii (y / 100))
                (digit_char_ascii (y / 10)) (digit_char_ascii y)
                (digit_char_ascii (mo / 10)) (digit_char_ascii mo)
                (digit_char_ascii (d / 10)) (digit_char_ascii d)
                (digit_char_ascii (h / 10)) (digit_char_ascii h)
                (digit_char_ascii (mi / 10)) (digit_char_ascii mi))
      as (S0 & R1 & R2).
    cbv zeta in S0, R1, R2. read_with S0. read_with R1. read_with R2.
    cbn [groups map].
    change [digit_char (y / 1000); digit_char (y / 100); digit_char (y / 10);
            digit_char y] with (four_digits y).
    repeat match goal with
           | |- context [[digit_char (?n / 10); digit_char ?n]] =>
               change [digit_char (n / 10); digit_char n] with (two_digits n)
           end.
    rewrite int_of_four_digits, !int_of_two_digits by lia. reflexivity. }
  rewrite E. split; [reflexivity|]. split.
  - intros (Y & M0 & D & H1 & H2). apply datetime_new_ok; lia.
  - intros N. unfold datetime_new.
    repeat match goal with
           | |- context [(?a <=? ?b)%Z] =>
               let F := fresh in
               destruct (Z.leb_spec a b) as [F|F]; cbn [andb negb]
           end; try (eexists; reflexivity).
    exfalso. apply N. lia.
Qed.

(** Whatever the cell holds, for a [now] that is a [datetime]: a result
    is a [datetime] again, and it is [now] itself or a whole minute in
    zone Asia/Taipei; what is raised is a [ValueError] or an
    [OverflowError]. *)
Theorem parse_cn_time_result (cell_text : str) (now : datetime) :
  valid_datetime now = true ->
  match parse_cn_time_at cell_text now with
  | Ok t =>
      valid_datetime t = true
      /\ (t = now
          \/ (dt_tzinfo t = Some TZ /\ second t = 0%Z /\ microsecond t = 0%Z))
  | Raise e =>
      exn_class e = "ValueError"%string
      \/ exn_class e = "OverflowError"%string
  end.
Proof.
  intros Hv. unfold parse_cn_time_at.
  assert (New : forall y mo d hh mm,
            match datetime_new y mo d hh mm (Some TZ) with
            | Ok t =>
                valid_datetime t = true
                /\ (t = now
                    \/ (dt_tzinfo t = Some TZ /\ second t = 0%Z
                        /\ microsecond t = 0%Z))
            | Raise e =>
                exn_class e = "ValueError"%string
                \/ exn_class e = "OverflowError"%string
            end).
  { intros y mo d hh mm.
    pose proof (datetime_new_cases y mo d hh mm (Some TZ)) as C.
    destruct (datetime_new y mo d hh mm (Some TZ)) as [t|e].
    - destruct C as [-> V]. split; [exact V|]. right. cbn. auto.
    - left. exact C. }
  destruct (re_match today_re (strip cell_text)) as [mo|].
  - destruct (groups mo) as [|g1 [|g2 [|g3 [|g4 l]]]];
      try (left; reflexivity).
    destruct (str_eqb g1 (py "今天")).
    + unfold date_of. apply New.
    + unfold minus_one_day.
      repeat match goal with
             | |- context [(?a <? ?b)%Z] => destruct (a <? b)%Z
             end; unfold date_of; cbn [year month day];
        try apply New.
      right. reflexivity.
  - destruct (re_match ymd_re (strip cell_text)) as [mo|].
    + destruct (map int_of (groups mo)) as [|y [|mo_ [|d [|hh [|mm [|x l]]]]]];
        try (left; reflexivity).
      apply New.
    + split; [exact Hv|]. left. reflexivity.
Qed.

End TemporalRanges.

(* ================================================================== *)
(** * The claims on the sample pages *)
(* ================================================================== *)

Module OnSamples.
Import Samples.

(** C1. A snapshot of an earlier successful fetch exists and the fetch is
    answered with a verification page: the snapshot is overwritten with
    the verification page before the check, and the page handed to the
    table parser is the verification page just fetched. *)
Theorem C1_snapshot_overwritten_by_blocked_body :
  let w := fresh page_captcha_html (Some page_two_html) true in
  let run := scrape_comicat_today lib w in
  _looks_like_captcha lib page_captcha_html = true
  /\ _looks_like_captcha lib page_two_html = false
  /\ snapshot w = Some page_two_html
  /\ written_in (log (snd run)) = [page_captcha_html]
  /\ snapshot (snd run) = Some page_captcha_html
  /\ parsed_in (log (snd run)) = [page_captcha_html]
  /\ fst run = Ok ([], msg_no_items).
Proof. vm_compute. repeat split. Qed.

(** C2 fails as the claim has it: with two records returned by the
    orchestrator, the response is the array of both, not the object of
    the first. *)
Lemma C2_two_records_two_objects :
  exists r1 r2 msg,
    fst (scrape_comicat_today lib (fresh page_two_html None true))
    = Ok ([r1; r2], msg)
    /\ fst (api_scrape lib (fresh page_two_html None true))
       = Ok (JArray [model_json r1; model_json r2])
    /\ fst (api_scrape lib (fresh page_two_html None true))
       <> Ok (model_json r1).
Proof.
  eexists _, _, _. split; [vm_compute; reflexivity|].
  split; [vm_compute; reflexivity|]. vm_compute. discriminate.
Qed.

Lemma C2_response_is_whole_list_witness :
  let w := fresh page_two_html None true in
  let run := scrape_comicat_today lib w in
  let items := fst (value_or ([], []) (fst run)) in
  items <> []
  /\ api_scrape lib w = (Ok (JArray (map model_json items)), snd run).
Proof.
  split; [vm_compute; discriminate|].
  apply (C2_response_is_whole_list lib
           (fresh page_two_html None true)
           (fst (value_or ([], []) (fst (scrape_comicat_today lib
                                          (fresh page_two_html None true)))))
           (snd (value_or ([], []) (fst (scrape_comicat_today lib
                                          (fresh page_two_html None true)))))).
  - vm_compute. reflexivity.
  - vm_compute. discriminate.
Defined.

(** C3. On a listing with two rows, the two detail fetches are attempted
    with the client of the listing fetch after its [with] block was
    left: the client refuses them, and the records keep their
    detail-page addresses. Inside the block the same rows resolve to the
    magnet link. *)
Theorem C3_detail_fetches_on_closed_client :
  let run := scrape_comicat_today lib (fresh page_two_html None true) in
  gets_with_state [] (log (snd run))
  = [ (0, COMICAT_TODAY_URL, true);
      (0, py "https://comicat.org/show-1.html", false);
      (0, py "https://comicat.org/show-2.html", false) ]
  /\ sent (snd run) = 1
  /\ map url (fst (value_or ([], []) (fst run)))
     = [ py "https://comicat.org/show-1.html";
         py "https://comicat.org/show-2.html" ]
  /\ map url (value_or []
                (fst (_parse_today_table lib page_two_html (Some 0) 12
                        (with_open_client page_two_html))))
     = [ py "magnet:?xt=urn:btih:abc"; py "magnet:?xt=urn:btih:abc" ].
Proof. vm_compute. repeat split. Qed.

(** C4. A listing whose only row has four cells and a title hyperlink but
    the time text "今天 25:00": the row is a retained one, yet no record
    is returned for it; the call raises [ValueError]. *)
Theorem C4_row_with_bad_time_raises :
  length (retained_of (html_parser lib page_bad_time_html)) = 1
  /\ fst (_parse_today_table lib page_bad_time_html None 12
            (fresh page_bad_time_html None true))
     = Raise (ValueError "hour must be in 0..23")
  /\ fst (api_scrape lib (fresh page_bad_time_html None true))
     = Ok (JObject [(py "error",
                     JString (py "Scrape failed: hour must be in 0..23"))]).
Proof. vm_compute. repeat split. Qed.


(** C6. The time text "今天 25:00" has the form the first pattern
    accepts, and [_parse_cn_time] raises on it, whatever [now] is; it
    neither returns a time nor falls back to [now]. With [now] at
    2025-10-26T10:00+08:00 the exception is the [ValueError] of the
    [datetime] constructor. *)
Theorem C6_hour_out_of_range_raises (now : datetime) (w : world) :
  (exists mo, re_match today_re (strip (py "今天 25:00")) = Some mo)
  /\ (exists e, fst (_parse_cn_time (py "今天 25:00") (Some now) w) = Raise e)
  /\ fst (_parse_cn_time (py "今天 25:00") (Some now0) w)
     = Raise (ValueError "hour must be in 0..23").
Proof.
  split; [eexists; vm_compute; reflexivity|]. split; [|reflexivity].
  unfold _parse_cn_time, bind, ret, lift. simpl fst.
  unfold parse_cn_time_at.
  replace (re_match today_re (strip (py "今天 25:00")))
    with (Some (MatchObj (py "今天 25:00") [py "今天"; py "25"; py "00"]))
    by (vm_compute; reflexivity).
  cbn [groups].
  replace (str_eqb (py "今天") (py "今天")) with true by reflexivity.
  replace (int_of (py "25")) with 25%Z by reflexivity.
  replace (int_of (py "00")) with 0%Z by reflexivity.
  unfold date_of, datetime_new.
  destruct (negb _); [eauto|]. destruct (negb _); [eauto|].
  destruct (negb _); [eauto|]. simpl. eauto.
Qed.

(** C9 fails as the claim has it: a retained row whose title hyperlink
    holds only a space gives a record with the empty title. *)
Lemma C9_blank_hyperlink_empty_title :
  exists r,
    fst (_parse_today_table lib page_no_title_html None 12
           (fresh page_no_title_html None true)) = Ok [r]
    /\ title r = [].
Proof. eexists. split; vm_compute; reflexivity. Qed.

Lemma C9_record_fields_witness :
  let w := fresh page_no_title_html None true in
  let run := _parse_today_table lib page_no_title_html None 12 w in
  run = (Ok (value_or [] (fst run)), snd run)
  /\ Forall2
       (fun row r =>
          title r = _clean_text (get_text (row_anchor row))
          /\ (title r = [] <->
              forallb isspace (get_text (row_anchor row)) = true)
          /\ size r <> [] /\ quality r <> [])
       (retained_of (html_parser lib page_no_title_html))
       (value_or [] (fst run)).
Proof.
  split; [vm_compute; reflexivity|].
  apply (C9_record_fields lib page_no_title_html None 12
           (fresh page_no_title_html None true) _
           (snd (_parse_today_table lib page_no_title_html None 12
                   (fresh page_no_title_html None true)))).
  vm_compute. reflexivity.
Defined.


Lemma empty_list_is_not_an_error_witness :
  let w := fresh page_captcha_html (Some page_two_html) true in
  scrape_comicat_today lib w
  = (Ok ([], msg_no_items), snd (scrape_comicat_today lib w))
  /\ api_scrape lib w = (Ok (JArray []), snd (scrape_comicat_today lib w)).
Proof.
  split; [vm_compute; reflexivity|].
  apply (empty_list_is_not_an_error lib
           (fresh page_captcha_html (Some page_two_html) true) msg_no_items).
  vm_compute. reflexivity.
Defined.

Lemma parse_cn_time_forms_witness :
  valid_datetime now0 = true
  /\ parse_cn_time_at (time_text (py "今天") 21 41) now0
     = Ok (Datetime 2025 10 26 21 41 0 0 (Some TZ)).
Proof.
  split; [reflexivity|].
  apply (proj1 (TemporalFacts.parse_cn_time_forms now0 eq_refl)); lia.
Defined.

Lemma table_rows_in_order_witness :
  listing_rows (html_parser lib page_two_html) = Some page_two_rows
  /\ times_parse page_two_rows now0
  /\ joins_succeed lib page_two_rows
  /\ exists recs,
       fst (_parse_today_table lib page_two_html None 12
              (fresh page_two_html None true)) = Ok recs
       /\ Forall2 record_from (retained_rows page_two_rows) recs.
Proof.
  assert (Ht : times_parse page_two_rows now0).
  { intros tr td0 [<- | [<- | []]] E; vm_compute in E; inversion E; subst;
      eexists; vm_compute; reflexivity. }
  assert (Hj : joins_succeed lib page_two_rows).
  { intros row _. eexists. reflexivity. }
  split; [vm_compute; reflexivity|]. split; [exact Ht|]. split; [exact Hj|].
  apply (proj1 (proj2 (table_rows_in_order lib page_two_html None 12
                         (fresh page_two_html None true))));
    [vm_compute; reflexivity|exact Ht|exact Hj].
Defined.

End OnSamples.

(* ================================================================== *)
(** * The further properties on sample inputs *)
(* ================================================================== *)

Module OnInputs.
Import Samples Offline TimeTexts.


Lemma scrape_result_shape_witness :
  let w := fresh page_two_html None true in
  let items := fst (value_or ([], []) (fst (scrape_comicat_today lib w))) in
  fst (scrape_comicat_today lib w) = Ok (items, py "OK")
  /\ length items <= 5
  /\ (forall r, In r items ->
        source r = py "comicat.org" /\ size r <> [] /\ quality r <> [])
  /\ (items = [] -> py "OK" = msg_no_cache \/ py "OK" = msg_no_items)
  /\ (items <> [] -> py "OK" = py "OK" \/ py "OK" = msg_cache).
Proof.
  split; [vm_compute; reflexivity|].
  apply (scrape_result_shape lib (fresh page_two_html None true)).
  vm_compute. reflexivity.
Defined.

Lemma listing_failure_propagates_witness :
  let w := offline (Some page_two_html) true in
  let e := Exn "ConnectError" "All connection attempts failed" in
  net w (sent w) COMICAT_TODAY_URL = Raise e
  /\ fst (scrape_comicat_today lib w) = Raise e
  /\ snapshot (snd (scrape_comicat_today lib w)) = snapshot w
  /\ parsed_in (log (snd (scrape_comicat_today lib w))) = parsed_in (log w)
  /\ written_in (log (snd (scrape_comicat_today lib w))) = written_in (log w)
  /\ state_of (length (clients w)) (snd (scrape_comicat_today lib w)) = CLOSED.
Proof.
  split; [reflexivity|].
  apply (listing_failure_propagates lib (offline (Some page_two_html) true)).
  reflexivity.
Defined.



Lemma day_word_time_unchecked_witness :
  (valid_datetime now0 = true /\ 25 < 100 /\ 0 < 100 /\ 24 <= 25)
  /\ parse_cn_time_at (time_text (py "今天") 25 0) now0
     = Raise (ValueError "hour must be in 0..23").
Proof.
  split; [repeat split; lia|].
  apply (proj1 (TemporalRanges.day_word_time_unchecked now0 25 0 eq_refl
                  ltac:(lia) ltac:(lia))).
  lia.
Defined.

Lemma ymd_text_parsed_witness :
  ((0 <= 2025 < 10000)%Z /\ (0 <= 2 < 100)%Z /\ (0 <= 28 < 100)%Z
   /\ (0 <= 7 < 100)%Z /\ (0 <= 5 < 100)%Z)
  /\ parse_cn_time_at (ymd_text 2025 2 28 7 5) now0
     = Ok (Datetime 2025 2 28 7 5 0 0 (Some TZ)).
Proof.
  split; [lia|].
  apply (proj1 (proj2 (TemporalRanges.ymd_text_parsed now0 2025 2 28 7 5
                         ltac:(lia) ltac:(lia) ltac:(lia) ltac:(lia)
                         ltac:(lia)))).
  vm_compute. intuition discriminate.
Defined.

Lemma parse_cn_time_result_witness :
  valid_datetime now0 = true
  /\ match parse_cn_time_at (py "昨天 08:12") now0 with
     | Ok t =>
         valid_datetime t = true
         /\ (t = now0
             \/ (dt_tzinfo t = Some TZ /\ second t = 0%Z
                 /\ microsecond t = 0%Z))
     | Raise e =>
         exn_class e = "ValueError"%string
         \/ exn_class e = "OverflowError"%string
     end.
Proof.
  split; [reflexivity|].
  apply (TemporalRanges.parse_cn_time_result (py "昨天 08:12") now0).
  reflexivity.
Defined.

Lemma table_all_or_nothing_witness :
  let tr := Tag "tr" []
              [ td [txt "今天 25:00"]; td [txt "动画"];
                td [a_href "show-1.html" [txt "Show 01 1080p"]];
                td [txt "567.6MB"] ] in
  let w := fresh page_bad_time_html None true in
  (listing_rows (html_parser lib page_bad_time_html) = Some [tr]
   /\ time_cell tr = Some (td [txt "今天 25:00"])
   /\ parse_cn_time_at (_clean_text (get_text (td [txt "今天 25:00"])))
        (clock w) = Raise (ValueError "hour must be in 0..23"))
  /\ fst (_parse_today_table lib page_bad_time_html None 12 w)
     = Raise (ValueError "hour must be in 0..23").
Proof.
  split; [repeat split; vm_compute; reflexivity|].
  apply (proj1 (proj2 (table_all_or_nothing lib page_bad_time_html None 12
                         (fresh page_bad_time_html None true) _ eq_refl))
           [] _ [] (td [txt "今天 25:00"]) _ eq_refl).
  - intros t td0 [].
  - intros row [].
  - reflexivity.
  - vm_compute. reflexivity.
Defined.

End OnInputs.
